(** * GeForce PFIFO command-submission engine (hw/display/geforce.c)

    A shallow embedding of the parts of the GeForce device model that
    decode the command ring of a channel: device memory (VRAM, RAMIN),
    DMA-object address translation, the RAMHT handle table, the RAMFC
    channel context records, [geforce_execute_command] and
    [geforce_fifo_process].

    Conventions.
    - Every C [uint32_t] is a [Z]; arithmetic that wraps in C is written
      with [u32] (reduction modulo 2^32).
    - Device memory is a map from byte addresses to bytes; the C reads
      little-endian words with [ldl_le_p] / [ldq_le_p].
    - The C loops ([while] in [geforce_fifo_process], the [do .. while]
      probe in [geforce_ramht_lookup]) do not carry a bound, so the
      embedding runs them on a [fuel] argument: a result [None] means that
      the loop had not finished after [fuel] iterations.
    - The per-class method handlers ([geforce_execute_clip],
      [geforce_execute_m2mf], ...) only touch device memory and the
      graphics state of the channel; they are a parameter [class_op] of
      the development, over an abstract graphics state [G]. *)

From Stdlib Require Import ZArith List Bool Lia.
Import ListNotations.
Open Scope Z_scope.

(** ** Machine integers and byte memory *)

Definition u32 (x : Z) : Z := x mod 2^32.

Definition is_u32 (x : Z) : Prop := 0 <= x < 2^32.

(** Functional update of an array or of a memory. *)
Definition upd {A : Type} (f : Z -> A) (k : Z) (v : A) : Z -> A :=
  fun x => if Z.eqb x k then v else f x.

(** One cell of memory holds one byte. *)
Definition byte_at (m : Z -> Z) (a : Z) : Z := Z.land (m a) 255.

(** [ldl_le_p]: little-endian 32-bit load. *)
Definition load_le32 (m : Z -> Z) (a : Z) : Z :=
  byte_at m a + byte_at m (a + 1) * 2^8 + byte_at m (a + 2) * 2^16
  + byte_at m (a + 3) * 2^24.

(** [stl_le_p]: little-endian 32-bit store. *)
Definition store_le32 (m : Z -> Z) (a v : Z) : Z -> Z :=
  upd (upd (upd (upd m a (Z.land v 255))
                    (a + 1) (Z.land (Z.shiftr v 8) 255))
               (a + 2) (Z.land (Z.shiftr v 16) 255))
      (a + 3) (Z.land (Z.shiftr v 24) 255).

(** [stq_le_p]: little-endian 64-bit store. *)
Definition store_le64 (m : Z -> Z) (a v : Z) : Z -> Z :=
  store_le32 (store_le32 m a (Z.land v (Z.ones 32))) (a + 4) (Z.shiftr v 32).

(** ** Device state *)

(** [GeForceSubchannel] *)
Record Subchannel := mkSubchannel {
  sc_object : Z;
  sc_engine : Z;          (* uint8_t *)
  sc_notifier : Z
}.

(** [GeForceDataState] *)
Record DataState := mkDataState {
  ds_mthd : Z;
  ds_subc : Z;
  ds_mcnt : Z;
  ds_ni : bool
}.

(** [GeForceChannel], the fields the engine reads and writes. *)
Record Channel := mkChannel {
  subr_return : Z;
  subr_active : bool;
  dma_state : DataState;
  schs : Z -> Subchannel;
  notify_pending : bool;
  notify_type : Z
}.

(** Device memory and the external physical address space. *)
Record Mem := mkMem {
  vram : Z -> Z;
  phys : Z -> Z
}.

(** Fields fixed by [geforce_realize]. *)
Record Config := mkConfig {
  card_type : Z;
  memsize : Z;
  ramin_flip : Z;
  class_mask : Z
}.

(** The live PFIFO puller registers. *)
Record Puller := mkPuller {
  fifo_cache1_push1 : Z;
  fifo_cache1_dma_put : Z;
  fifo_cache1_dma_get : Z;
  fifo_cache1_ref_cnt : Z;
  fifo_cache1_dma_instance : Z;
  fifo_cache1_semaphore : Z
}.

(** The CACHE1 software-method queue and the PFIFO interrupt state. *)
Record Cache1 := mkCache1 {
  fifo_cache1_put : Z;
  fifo_cache1_get : Z;
  fifo_cache1_method : Z -> Z;
  fifo_cache1_data : Z -> Z;
  fifo_cache1_pull0 : Z;
  fifo_intr : Z
}.

(** PGRAPH notification state. *)
Record GraphIrq := mkGraphIrq {
  graph_intr : Z;
  graph_nsource : Z;
  graph_notify : Z
}.

(** [GEFORCE_CACHE1_SIZE], [GEFORCE_CHANNEL_COUNT] *)
Definition GEFORCE_CACHE1_SIZE : Z := 64.
Definition GEFORCE_CHANNEL_COUNT : Z := 32.

Section Engine.

(** Graphics state of the class handlers and the handlers themselves:
    [class_op cls8 chid subc method param] is the [switch (cls8)] of
    [geforce_execute_command]; [class_op] is declared below, after the
    state it reads. *)
Context {G : Type}.

Record GState := mkGState {
  cfg : Config;
  mem : Mem;
  fifo_ramht : Z;
  fifo_ramfc : Z;
  pull : Puller;
  cache1 : Cache1;
  graph : GraphIrq;
  timer_now : Z;            (* value of geforce_get_current_time *)
  channels : Z -> Channel;
  gfx : G
}.

Definition with_mem (s : GState) (m : Mem) : GState :=
  mkGState (cfg s) m (fifo_ramht s) (fifo_ramfc s) (pull s) (cache1 s)
    (graph s) (timer_now s) (channels s) (gfx s).

Definition with_pull (s : GState) (p : Puller) : GState :=
  mkGState (cfg s) (mem s) (fifo_ramht s) (fifo_ramfc s) p (cache1 s)
    (graph s) (timer_now s) (channels s) (gfx s).

Definition with_cache1 (s : GState) (c : Cache1) : GState :=
  mkGState (cfg s) (mem s) (fifo_ramht s) (fifo_ramfc s) (pull s) c
    (graph s) (timer_now s) (channels s) (gfx s).

Definition with_graph (s : GState) (g : GraphIrq) : GState :=
  mkGState (cfg s) (mem s) (fifo_ramht s) (fifo_ramfc s) (pull s) (cache1 s)
    g (timer_now s) (channels s) (gfx s).

Definition with_channels (s : GState) (chs : Z -> Channel) : GState :=
  mkGState (cfg s) (mem s) (fifo_ramht s) (fifo_ramfc s) (pull s) (cache1 s)
    (graph s) (timer_now s) chs (gfx s).

Definition with_gfx (s : GState) (g : G) : GState :=
  mkGState (cfg s) (mem s) (fifo_ramht s) (fifo_ramfc s) (pull s) (cache1 s)
    (graph s) (timer_now s) (channels s) g.

Definition set_dma_get (s : GState) (v : Z) : GState :=
  let p := pull s in
  with_pull s (mkPuller (fifo_cache1_push1 p) (fifo_cache1_dma_put p) v
                 (fifo_cache1_ref_cnt p) (fifo_cache1_dma_instance p)
                 (fifo_cache1_semaphore p)).

Definition set_ref_cnt (s : GState) (v : Z) : GState :=
  let p := pull s in
  with_pull s (mkPuller (fifo_cache1_push1 p) (fifo_cache1_dma_put p)
                 (fifo_cache1_dma_get p) v (fifo_cache1_dma_instance p)
                 (fifo_cache1_semaphore p)).

Definition set_channel (s : GState) (chid : Z) (ch : Channel) : GState :=
  with_channels s (upd (channels s) chid ch).

(** ** Memory access functions *)

Definition geforce_vram_read32 (s : GState) (addr : Z) : Z :=
  if u32 (addr + 3) <? memsize (cfg s) then load_le32 (vram (mem s)) addr
  else 0.

Definition geforce_vram_write32 (s : GState) (addr val : Z) : GState :=
  if u32 (addr + 3) <? memsize (cfg s) then
    with_mem s (mkMem (store_le32 (vram (mem s)) addr val) (phys (mem s)))
  else s.

Definition geforce_vram_write64 (s : GState) (addr val : Z) : GState :=
  if u32 (addr + 7) <? memsize (cfg s) then
    with_mem s (mkMem (store_le64 (vram (mem s)) addr val) (phys (mem s)))
  else s.

Definition geforce_ramin_read32 (s : GState) (addr : Z) : Z :=
  geforce_vram_read32 s (Z.lxor addr (ramin_flip (cfg s))).

Definition geforce_ramin_write32 (s : GState) (addr val : Z) : GState :=
  geforce_vram_write32 s (Z.lxor addr (ramin_flip (cfg s))) val.

Definition geforce_physical_read32 (s : GState) (addr : Z) : Z :=
  load_le32 (phys (mem s)) addr.

Definition geforce_physical_write32 (s : GState) (addr val : Z) : GState :=
  with_mem s (mkMem (vram (mem s)) (store_le32 (phys (mem s)) addr val)).

Definition geforce_physical_write64 (s : GState) (addr val : Z) : GState :=
  with_mem s (mkMem (vram (mem s)) (store_le64 (phys (mem s)) addr val)).

(** ** DMA access functions *)

Definition geforce_dma_pt_lookup (s : GState) (object addr : Z) : Z :=
  let address_adj := u32 (addr + Z.shiftr (geforce_ramin_read32 s object) 20) in
  let page_offset := Z.land address_adj 0xFFF in
  let page_index := Z.shiftr address_adj 12 in
  let page := Z.land (geforce_ramin_read32 s (u32 (object + 8 + page_index * 4)))
                     0xFFFFF000 in
  Z.lor page page_offset.

Definition geforce_dma_lin_lookup (s : GState) (object addr : Z) : Z :=
  let adjust := Z.shiftr (geforce_ramin_read32 s object) 20 in
  let base := Z.land (geforce_ramin_read32 s (u32 (object + 8))) 0xFFFFF000 in
  u32 (base + adjust + addr).

(** The address computation shared by every [geforce_dma_read*] and
    [geforce_dma_write*]. *)
Definition geforce_dma_addr (s : GState) (object addr : Z) : Z :=
  let flags := geforce_ramin_read32 s object in
  if negb (Z.land flags 0x00002000 =? 0) then geforce_dma_lin_lookup s object addr
  else geforce_dma_pt_lookup s object addr.

Definition dma_is_linear (s : GState) (object : Z) : bool :=
  negb (Z.land (geforce_ramin_read32 s object) 0x00002000 =? 0).

Definition dma_is_physical (s : GState) (object : Z) : bool :=
  negb (Z.land (geforce_ramin_read32 s object) 0x00020000 =? 0).

Definition geforce_dma_read32 (s : GState) (object addr : Z) : Z :=
  let addr_abs := geforce_dma_addr s object addr in
  if dma_is_physical s object then geforce_physical_read32 s addr_abs
  else geforce_vram_read32 s addr_abs.

Definition geforce_dma_write32 (s : GState) (object addr val : Z) : GState :=
  let addr_abs := geforce_dma_addr s object addr in
  if dma_is_physical s object then geforce_physical_write32 s addr_abs val
  else geforce_vram_write32 s addr_abs val.

Definition geforce_dma_write64 (s : GState) (object addr val : Z) : GState :=
  let addr_abs := geforce_dma_addr s object addr in
  if dma_is_physical s object then geforce_physical_write64 s addr_abs val
  else geforce_vram_write64 s addr_abs val.

(** ** RAMFC access *)

Definition geforce_ramfc_address (s : GState) (chid offset : Z) : Z :=
  let ramfc :=
    if card_type (cfg s) <? 0x40 then u32 (Z.shiftl (Z.land (fifo_ramfc s) 0xFFF) 8)
    else u32 (Z.shiftl (Z.land (fifo_ramfc s) 0xFFF) 16) in
  let ramfc_ch_size := if card_type (cfg s) <? 0x40 then 0x40 else 0x80 in
  u32 (ramfc + chid * ramfc_ch_size + offset).

Definition geforce_ramfc_write32 (s : GState) (chid offset value : Z) : GState :=
  geforce_ramin_write32 s (geforce_ramfc_address s chid offset) value.

Definition geforce_ramfc_read32 (s : GState) (chid offset : Z) : Z :=
  geforce_ramin_read32 s (geforce_ramfc_address s chid offset).

(** ** RAMHT lookup *)

Definition ramht_addr (s : GState) : Z :=
  u32 (Z.shiftl (Z.land (fifo_ramht s) 0xFFF) 8).

Definition ramht_bits (s : GState) : Z :=
  Z.land (Z.shiftr (fifo_ramht s) 16) 0xFF + 9.

(** [1 << ramht_bits << 3] is evaluated in [int] (bits shifted out are
    lost) and stored in a [uint32_t]. *)
Definition ramht_size (s : GState) : Z :=
  u32 (Z.shiftl (Z.shiftl 1 (ramht_bits s)) 3).

(** [while (x) { hash ^= (x & ((1 << ramht_bits) - 1)); x >>= ramht_bits; }]:
    [x] loses at least 9 bits per round, so 32 rounds exhaust a 32-bit
    handle. *)
Fixpoint ramht_fold (bits : Z) (rounds : nat) (x hash : Z) : Z :=
  match rounds with
  | O => hash
  | S r =>
      if x =? 0 then hash
      else ramht_fold bits r (Z.shiftr x bits)
             (Z.lxor hash (Z.land x (u32 (Z.ones bits))))
  end.

Definition ramht_hash (s : GState) (handle chid : Z) : Z :=
  let bits := ramht_bits s in
  let hash := ramht_fold bits 32 handle 0 in
  let hash := Z.lxor hash (u32 (Z.shiftl (Z.land chid 0xF) (bits - 4))) in
  u32 (Z.shiftl hash 3).

(** Decoding of the context word; the layout depends on [card_type]. *)
Definition ctx_chid (s : GState) (context : Z) : Z :=
  if card_type (cfg s) <? 0x40 then Z.land (Z.shiftr context 24) 0x1F
  else Z.land (Z.shiftr context 23) 0x1F.

Definition ctx_object (s : GState) (context : Z) : Z :=
  if card_type (cfg s) <? 0x40 then Z.shiftl (Z.land context 0xFFFF) 4
  else Z.shiftl (Z.land context 0xFFFFF) 4.

Definition ctx_engine (s : GState) (context : Z) : Z :=
  if card_type (cfg s) <? 0x40 then Z.land (Z.shiftr context 16) 0xFF
  else Z.land (Z.shiftr context 20) 0x7.

(** The slot at byte offset [it] of the table, for the requesting
    channel: [Some (object, engine)] when its handle and embedded channel
    id both match. *)
Definition ramht_slot (s : GState) (handle chid it : Z) : option (Z * Z) :=
  if geforce_ramin_read32 s (u32 (ramht_addr s + it)) =? handle then
    let context := geforce_ramin_read32 s (u32 (ramht_addr s + it + 4)) in
    if chid =? ctx_chid s context then Some (ctx_object s context, ctx_engine s context)
    else None
  else None.

(** The [do { ... } while (it != hash)] probe.  [Some (Some r)]: found,
    [Some None]: lookup failed (logged), [None]: still probing after
    [fuel] slots. *)
Fixpoint ramht_probe (fuel : nat) (s : GState) (handle chid hash it : Z)
  : option (option (Z * Z)) :=
  match fuel with
  | O => None
  | S f =>
      match ramht_slot s handle chid it with
      | Some r => Some (Some r)
      | None =>
          let it1 := u32 (it + 8) in
          let it2 := if ramht_size s <=? it1 then 0 else it1 in
          if it2 =? hash then Some None
          else ramht_probe f s handle chid hash it2
      end
  end.

Definition geforce_ramht_lookup (fuel : nat) (s : GState) (handle chid : Z)
  : option (option (Z * Z)) :=
  let hash := ramht_hash s handle chid in
  ramht_probe fuel s handle chid hash hash.

(** ** Method dispatch *)

(** The class handlers, given the class id [cls] (masked with
    [class_mask]), the channel, the subchannel, method and parameter; they
    see the whole device and return the new graphics state and memory. *)
Variable class_op : Z -> Z -> Z -> Z -> Z -> GState -> G * Mem.

(** Class ids that have a [case] in the [switch (cls8)]. *)
Definition known_class (cls8 : Z) : bool :=
  existsb (Z.eqb cls8)
    [0x19; 0x39; 0x43; 0x44; 0x4a; 0x5f; 0x9f; 0x61; 0x65; 0x8a; 0x62; 0x97].

Definition with_schs (ch : Channel) (f : Z -> Subchannel) : Channel :=
  mkChannel (subr_return ch) (subr_active ch) (dma_state ch) f
    (notify_pending ch) (notify_type ch).

Definition with_notify (ch : Channel) (pending : bool) (ty : Z) : Channel :=
  mkChannel (subr_return ch) (subr_active ch) (dma_state ch) (schs ch)
    pending ty.

Definition with_dma_state (ch : Channel) (ds : DataState) : Channel :=
  mkChannel (subr_return ch) (subr_active ch) ds (schs ch)
    (notify_pending ch) (notify_type ch).

Definition with_subr (ch : Channel) (ret : Z) (active : bool) : Channel :=
  mkChannel ret active (dma_state ch) (schs ch) (notify_pending ch)
    (notify_type ch).

(** Patch of the notifier field of the previously bound object (method 0,
    before the lookup). *)
Definition bind_patch (s : GState) (chid subc : Z) : GState :=
  let sc := schs (channels s chid) subc in
  if sc_engine sc =? 1 then
    let word1 := geforce_ramin_read32 s (u32 (sc_object sc + 4)) in
    let word1 :=
      if card_type (cfg s) <? 0x40 then
        Z.lor (Z.land word1 0x0000FFFF) (u32 (Z.shiftl (Z.shiftr (sc_notifier sc) 4) 16))
      else Z.lor (Z.land word1 0xFFF00000) (Z.shiftr (sc_notifier sc) 4) in
    geforce_ramin_write32 s (u32 (sc_object sc + 4)) word1
  else s.

(** The software-method path: queue [(method, param)] in CACHE1 and raise
    the PFIFO interrupt ([geforce_update_irq] only drives the PCI line). *)
Definition software_method_push (s : GState) (subc method param : Z) : GState :=
  let c := cache1 s in
  let put := fifo_cache1_put c in
  let put1 := u32 (put + 4) in
  with_cache1 s
    (mkCache1 (if put1 =? GEFORCE_CACHE1_SIZE * 4 then 0 else put1)
       (fifo_cache1_get c)
       (upd (fifo_cache1_method c) (put / 4)
          (u32 (Z.lor (Z.shiftl method 2) (Z.shiftl subc 13))))
       (upd (fifo_cache1_data c) (put / 4) param)
       (Z.lor (fifo_cache1_pull0 c) 0x00000100)
       (Z.lor (fifo_intr c) 0x00000001)).

(** The notification step after a graphics-engine method. *)
Definition notify_step (s : GState) (chid subc : Z) : GState :=
  let ch := channels s chid in
  if notify_pending ch then
    let s1 := set_channel s chid (with_notify ch false (notify_type ch)) in
    let notifier := sc_notifier (schs ch subc) in
    let s2 :=
      if negb (Z.land (geforce_ramin_read32 s1 notifier) 0xFF =? 0x30) then
        let s' := geforce_dma_write64 s1 notifier 0x0 (timer_now s1) in
        let s' := geforce_dma_write32 s' notifier 0x8 0 in
        geforce_dma_write32 s' notifier 0xC 0
      else s1 in
    if negb (notify_type ch =? 0) then
      let g := graph s2 in
      with_graph s2 (mkGraphIrq (Z.lor (graph_intr g) 0x00000001)
                       (Z.lor (graph_nsource g) 0x00000001) 0x00110000)
    else s2
  else s.

(** [geforce_execute_command]; [None] when a handle lookup does not
    finish within [fuel] probes. *)
Definition geforce_execute_command (fuel : nat) (s : GState) (chid subc method param : Z)
  : option (GState * bool) :=
  let finish (s' : GState) (software_method : bool) :=
    Some (if software_method then software_method_push s' subc method param else s', true) in
  if method =? 0x000 then
    let s1 := bind_patch s chid subc in
    match geforce_ramht_lookup fuel s1 param chid with
    | None => None
    | Some r =>
        let ch := channels s1 chid in
        let sc := schs ch subc in
        let sc1 :=
          match r with
          | Some (o, e) => mkSubchannel o e (sc_notifier sc)
          | None => sc
          end in
        let sc2 :=
          if sc_engine sc1 =? 1 then
            let word1 := geforce_ramin_read32 s1 (u32 (sc_object sc1 + 4)) in
            mkSubchannel (sc_object sc1) (sc_engine sc1)
              (if card_type (cfg s1) <? 0x40 then u32 (Z.shiftl (Z.shiftr word1 16) 4)
               else u32 (Z.shiftl (Z.land word1 0xFFFFF) 4))
          else sc1 in
        let s2 := set_channel s1 chid (with_schs ch (upd (schs ch) subc sc2)) in
        finish s2 (sc_engine sc2 =? 0)
    end
  else if method =? 0x014 then
    finish (set_ref_cnt s param) false
  else if 0x040 <=? method then
    let sc := schs (channels s chid) subc in
    if sc_engine sc =? 1 then
      let lookedup :=
        if (0x060 <=? method) && (method <? 0x080) then
          match geforce_ramht_lookup fuel s param chid with
          | None => None
          | Some (Some (o, _)) => Some o
          | Some None => Some param
          end
        else Some param in
      match lookedup with
      | None => None
      | Some param =>
          let cls := Z.land (geforce_ramin_read32 s (sc_object sc)) (class_mask (cfg s)) in
          let cls8 := Z.land cls 0xFF in
          let s1 :=
            if known_class cls8 then
              let (g, m) := class_op cls chid subc method param s in
              with_gfx (with_mem s m) g
            else s in
          let s2 := notify_step s1 chid subc in
          let ch := channels s2 chid in
          let s3 :=
            if method =? 0x041 then set_channel s2 chid (with_notify ch true param)
            else if method =? 0x060 then
              set_channel s2 chid
                (with_schs ch (upd (schs ch) subc
                   (mkSubchannel (sc_object (schs ch subc)) (sc_engine (schs ch subc)) param)))
            else s2 in
          finish s3 false
      end
    else finish s (sc_engine sc =? 0)
  else finish s false.

(** ** FIFO processing *)

(** The channel currently loaded in the live puller registers. *)
Definition live_chid (s : GState) : Z := Z.land (fifo_cache1_push1 (pull s)) 0x1F.

(** Offset of the semaphore in a RAMFC record. *)
Definition ramfc_sro (s : GState) : Z := if card_type (cfg s) <? 0x40 then 0x2C else 0x30.

(** The five registers saved and loaded by a context switch. *)
Definition live_regs (s : GState) : Z * Z * Z * Z * Z :=
  let p := pull s in
  (fifo_cache1_dma_put p, fifo_cache1_dma_get p, fifo_cache1_ref_cnt p,
   fifo_cache1_dma_instance p, fifo_cache1_semaphore p).

(** The [if (oldchid != chid)] block of [geforce_fifo_process]: save the
    outgoing channel, load [chid]. *)
Definition geforce_fifo_switch (s : GState) (chid : Z) : GState :=
  let oldchid := live_chid s in
  let sro := ramfc_sro s in
  let p := pull s in
  let s1 := geforce_ramfc_write32 s oldchid 0x0 (fifo_cache1_dma_put p) in
  let s2 := geforce_ramfc_write32 s1 oldchid 0x4 (fifo_cache1_dma_get p) in
  let s3 := geforce_ramfc_write32 s2 oldchid 0x8 (fifo_cache1_ref_cnt p) in
  let s4 := geforce_ramfc_write32 s3 oldchid 0xC (fifo_cache1_dma_instance p) in
  let s5 := geforce_ramfc_write32 s4 oldchid sro (fifo_cache1_semaphore p) in
  with_pull s5
    (mkPuller (Z.lor (Z.land (fifo_cache1_push1 p) 0xFFFFFFE0) chid)
       (geforce_ramfc_read32 s5 chid 0x0)
       (geforce_ramfc_read32 s5 chid 0x4)
       (geforce_ramfc_read32 s5 chid 0x8)
       (geforce_ramfc_read32 s5 chid 0xC)
       (geforce_ramfc_read32 s5 chid sro)).

(** A call of [geforce_execute_command] made by the loop: subchannel,
    method, parameter word, and the ring offset the word was read from. *)
Record Dispatch := mkDispatch {
  dp_subc : Z;
  dp_mthd : Z;
  dp_param : Z;
  dp_offset : Z
}.

(** One iteration of the [while] loop, the condition [get != put] having
    been checked: the new state, the dispatch made (if any), and [false]
    when the loop [break]s. *)
Definition fifo_step (fuel : nat) (s : GState) (chid : Z)
  : option (GState * list Dispatch * bool) :=
  let ch := channels s chid in
  let ds := dma_state ch in
  let get := fifo_cache1_dma_get (pull s) in
  let word := geforce_dma_read32 s (u32 (Z.shiftl (fifo_cache1_dma_instance (pull s)) 4)) get in
  let s := set_dma_get s (u32 (get + 4)) in
  if negb (ds_mcnt ds =? 0) then
    let d := [mkDispatch (ds_subc ds) (ds_mthd ds) word get] in
    match geforce_execute_command fuel s chid (ds_subc ds) (ds_mthd ds) word with
    | None => None
    | Some (s', ok) =>
        if negb ok then
          Some (set_dma_get s' (u32 (fifo_cache1_dma_get (pull s') - 4)), d, false)
        else
          let ch' := channels s' chid in
          let ds' := dma_state ch' in
          let mthd' := if ds_ni ds' then ds_mthd ds' else u32 (ds_mthd ds' + 1) in
          Some (set_channel s' chid
                  (with_dma_state ch'
                     (mkDataState mthd' (ds_subc ds') (u32 (ds_mcnt ds' - 1)) (ds_ni ds'))),
                d, true)
    end
  else
    let get' := fifo_cache1_dma_get (pull s) in
    let s' :=
      if Z.land word 0xe0000003 =? 0x20000000 then
        (* Old jump *)
        set_dma_get s (Z.land word 0x1fffffff)
      else if Z.land word 3 =? 1 then
        (* Jump *)
        set_dma_get s (Z.land word 0xfffffffc)
      else if Z.land word 3 =? 2 then
        (* Call *)
        if subr_active ch then s
        else set_dma_get (set_channel s chid (with_subr ch get' true))
               (Z.land word 0xfffffffc)
      else if word =? 0x00020000 then
        (* Return *)
        if negb (subr_active ch) then s
        else set_dma_get (set_channel s chid (with_subr ch (subr_return ch) false))
               (subr_return ch)
      else if Z.land word 0xa0030003 =? 0 then
        (* Method header *)
        set_channel s chid
          (with_dma_state ch
             (mkDataState (Z.land (Z.shiftr word 2) 0x7ff) (Z.land (Z.shiftr word 13) 7)
                (Z.land (Z.shiftr word 18) 0x7ff) (negb (Z.land word 0x40000000 =? 0))))
      else s in
    Some (s', [], true).

(** The [while (get != put)] loop, run for at most [iters] iterations. *)
Fixpoint fifo_loop (iters fuel : nat) (s : GState) (chid : Z)
  : option (GState * list Dispatch) :=
  match iters with
  | O => None
  | S n =>
      if fifo_cache1_dma_get (pull s) =? fifo_cache1_dma_put (pull s) then Some (s, [])
      else
        match fifo_step fuel s chid with
        | None => None
        | Some (s', d, cont) =>
            if cont then
              match fifo_loop n fuel s' chid with
              | None => None
              | Some (s'', tr) => Some (s'', d ++ tr)
              end
            else Some (s', d)
        end
  end.

(** [geforce_fifo_process]: the final state and the dispatches made. *)
Definition geforce_fifo_process (fuel : nat) (s : GState) (chid : Z)
  : option (GState * list Dispatch) :=
  let oldchid := live_chid s in
  if oldchid =? chid then
    if fifo_cache1_dma_put (pull s) =? fifo_cache1_dma_get (pull s) then Some (s, [])
    else fifo_loop fuel fuel s chid
  else if geforce_ramfc_read32 s chid 0x0 =? geforce_ramfc_read32 s chid 0x4 then Some (s, [])
  else fifo_loop fuel fuel (geforce_fifo_switch s chid) chid.

(** ** Register writes *)

(** The PFIFO registers of [geforce_mmio_write] that this development
    uses; other offsets are not modelled and leave the state unchanged. *)
Definition geforce_mmio_write_pfifo (s : GState) (addr val : Z) : GState :=
  let c := cache1 s in
  if addr =? 0x003210 then
    (* PFIFO_CACHE1_PUT *)
    with_cache1 s (mkCache1 val (fifo_cache1_get c) (fifo_cache1_method c)
                     (fifo_cache1_data c) (fifo_cache1_pull0 c) (fifo_intr c))
  else if addr =? 0x003270 then
    (* PFIFO_CACHE1_GET *)
    let get := Z.land val (GEFORCE_CACHE1_SIZE * 4 - 1) in
    if negb (get =? fifo_cache1_put c) then
      with_cache1 s (mkCache1 (fifo_cache1_put c) get (fifo_cache1_method c)
                       (fifo_cache1_data c) (fifo_cache1_pull0 c)
                       (Z.lor (fifo_intr c) 0x00000001))
    else
      with_cache1 s (mkCache1 (fifo_cache1_put c) get (fifo_cache1_method c)
                       (fifo_cache1_data c)
                       (Z.land (fifo_cache1_pull0 c) (Z.lnot 0x00000100))
                       (Z.land (fifo_intr c) (Z.lnot 0x00000001)))
  else s.

End Engine.

(** ** Concrete devices *)

(** Class handlers that leave the device unchanged, for concrete runs
    whose rings never reach a class handler. *)
Definition no_class_op (cls chid subc method param : Z) (s : @GState unit) : unit * Mem :=
  (tt, mem s).

Definition MiB : Z := 2^20.

(** A GeForce3 as [geforce_realize] sets it up: 64 MiB of VRAM,
    [ramin_flip = memsize - 64], [class_mask = 0xFFF]. *)
Definition geforce3_cfg : Config := mkConfig 0 (64 * MiB) (64 * MiB - 64) 0x00000FFF.

Definition reset_channel : Channel :=
  mkChannel 0 false (mkDataState 0 0 0 false) (fun _ => mkSubchannel 0 0 0) false 0.

(** Memory holding the given little-endian words (VRAM addresses). *)
Definition vram_words (ws : list (Z * Z)) : Z -> Z :=
  fold_left (fun m av => store_le32 m (fst av) (snd av)) ws (fun _ => 0).

(** VRAM address of a RAMIN address on [geforce3_cfg]. *)
Definition ramin_at (a : Z) : Z := Z.lxor a (ramin_flip geforce3_cfg).

Definition mk_state (ws : list (Z * Z)) (ramht ramfc : Z) (p : Puller)
  (chs : Z -> Channel) : @GState unit :=
  mkGState geforce3_cfg (mkMem (vram_words ws) (fun _ => 0)) ramht ramfc p
    (mkCache1 0 0 (fun _ => 0) (fun _ => 0) 0 0) (mkGraphIrq 0 0 0) 0 chs tt.

(** Channel 0 live, a ring of four words at VRAM 0 (descriptor 0 is an
    all-zero paged object), [put = 16]. *)
Definition run3_state : @GState unit :=
  mk_state [(0, 0x000C4400); (4, 11); (8, 22); (12, 33)] 0 0x10
    (mkPuller 0 16 0 0 0 0) (fun _ => reset_channel).

(** Channel 0 live, subchannel 0 unbound (engine 0): a header for two
    parameters of method 0x100 on subchannel 0, then 11 and 22;
    [put = 12]. *)
Definition sw_state : @GState unit :=
  mk_state [(0, 0x00080400); (4, 11); (8, 22)] 0 0x10
    (mkPuller 0 12 0 0 0 0) (fun _ => reset_channel).

(** [sw_state] after its header word: get 4, two parameters of method
    0x100 on subchannel 0 pending. *)
Definition sw_mid_channel : Channel :=
  mkChannel 0 false (mkDataState 0x100 0 2 false) (fun _ => mkSubchannel 0 0 0) false 0.

Definition sw_mid_state : @GState unit :=
  mk_state [(0, 0x00080400); (4, 11); (8, 22)] 0 0x10
    (mkPuller 0 12 4 0 0 0) (fun _ => sw_mid_channel).

(** Channel 0 live, the word at 0 a jump to 0, [put = 8]. *)
Definition selfjump_state : @GState unit :=
  mk_state [(0, 0x00000001)] 0 0x10 (mkPuller 0 8 0 0 0 0) (fun _ => reset_channel).

(** Address translator: a linear descriptor whose second word is 0 and
    whose third word is 0x2000, adjust field 0x10. *)
Definition lin_desc_state : @GState unit :=
  mk_state [(ramin_at 0, 0x01002000); (ramin_at 4, 0); (ramin_at 8, 0x2000)] 0 0
    (mkPuller 0 0 0 0 0 0) (fun _ => reset_channel).

(** Address translator: a paged descriptor with adjust field 1 and page
    table [0x5000; 0x9000]. *)
Definition paged_desc_state : @GState unit :=
  mk_state [(ramin_at 0, 0x00100000); (ramin_at 8, 0x5000); (ramin_at 12, 0x9000)] 0 0
    (mkPuller 0 0 0 0 0 0) (fun _ => reset_channel).

(** A paged descriptor with adjust field 0 and page-table entry 0 equal
    to 0x5000. *)
Definition paged0_desc_state : @GState unit :=
  mk_state [(ramin_at 0, 0); (ramin_at 8, 0x5000)] 0 0
    (mkPuller 0 0 0 0 0 0) (fun _ => reset_channel).



(** [ramht_state] with subchannel 0 of channel 5 bound to the object at
    0x1000 on engine 1 (notifier 0x2000). *)
Definition bound_channel : Channel :=
  mkChannel 0 false (mkDataState 0 0 0 false)
    (fun subc => if subc =? 0 then mkSubchannel 0x1000 1 0x2000 else mkSubchannel 0 0 0)
    false 0.

Definition ramht_bound_state : @GState unit :=
  mk_state [(ramin_at 0x4E8, 0x1234); (ramin_at 0x4EC, 0x05010100)] 0 0
    (mkPuller 0 0 0 0 0 0) (fun c => if c =? 5 then bound_channel else reset_channel).

(** Channel 1 with subchannel 0 bound on engine 1 to the object at RAMIN
    0xFFC, notifier 0x100: a bind on it patches RAMIN word 0x1000. *)
Definition patch_channel : Channel :=
  mkChannel 0 false (mkDataState 0 0 0 false)
    (fun subc => if subc =? 0 then mkSubchannel 0xFFC 1 0x100 else mkSubchannel 0 0 0)
    false 0.

(** Channel 0 live ([put = 8], [get = 0]), RAMFC records at RAMIN 0x1000
    (64 bytes each), channel 1's record holding [put = 8], [get = 0],
    descriptor 0; channel 1's ring at VRAM 0 is a bind header (method 0,
    subchannel 0, one parameter) and the handle 0x4242, absent from the
    empty 512-slot handle table at RAMIN 0. *)
Definition two_channel_state : @GState unit :=
  mk_state [(0, 0x00040000); (4, 0x4242); (ramin_at 0x1040, 8)] 0 0x10
    (mkPuller 0 8 0 0 0 0) (fun c => if c =? 1 then patch_channel else reset_channel).

(** The same device with no subchannel bound. *)
Definition two_channel_quiet_state : @GState unit :=
  mk_state [(0, 0x00040000); (4, 0x4242); (ramin_at 0x1040, 8)] 0 0x10
    (mkPuller 0 8 0 0 0 0) (fun _ => reset_channel).

(** The state a run of [geforce_fifo_process] ends in ([s] if it did
    not end). *)
Definition after_process {G : Type} (r : option (@GState G * list Dispatch)) (s : @GState G) : @GState G :=
  match r with Some (s', _) => s' | None => s end.

Definition two_channel_quiet_after : @GState unit :=
  after_process (geforce_fifo_process no_class_op 600 two_channel_quiet_state 1) two_channel_quiet_state.

(** ** Specifications of the claims *)




(** The paged translation as the spec words it. *)
Definition spec_paged_addr {G : Type} (s : @GState G) (object offset : Z) : Z :=
  Z.lor (Z.land (geforce_ramin_read32 s (u32 (object + 8 + Z.shiftr offset 12 * 4))) 0xFFFFF000)
        (Z.land offset 0xFFF).

(** The linear translation as the spec words it: base field from the
    descriptor's second word. *)
Definition spec_linear_addr {G : Type} (s : @GState G) (object offset : Z) : Z :=
  Z.land (geforce_ramin_read32 s (u32 (object + 4))) 0xFFFFF000
  + Z.shiftr (geforce_ramin_read32 s object) 20 + offset.

(** What a command leaves to the loop that ran it: the configuration,
    the RAMFC base, the ring cursors, the descriptor instance, the live
    channel, and every channel's method state. *)
Definition keeps {G : Type} (s s' : @GState G) : Prop :=
  cfg s' = cfg s /\ fifo_ramfc s' = fifo_ramfc s /\
  fifo_cache1_dma_get (pull s') = fifo_cache1_dma_get (pull s) /\
  fifo_cache1_dma_put (pull s') = fifo_cache1_dma_put (pull s) /\
  fifo_cache1_dma_instance (pull s') = fifo_cache1_dma_instance (pull s) /\
  fifo_cache1_push1 (pull s') = fifo_cache1_push1 (pull s) /\
  (forall c, dma_state (channels s' c) = dma_state (channels s c)).

(** What the loop never changes: the configuration, the RAMFC base and the
    live channel. *)
Definition frame {G : Type} (s s' : @GState G) : Prop :=
  cfg s' = cfg s /\ fifo_ramfc s' = fifo_ramfc s /\
  fifo_cache1_push1 (pull s') = fifo_cache1_push1 (pull s).

(** * Proofs *)

(** ** Address translator *)

(** C3 (corrected): a paged descriptor (linear flag clear) first adds the
    adjust field [word0 >> 20] to the offset, modulo 2^32, and then
    indexes the inline page table at byte 8 with the adjusted offset:
    [page_table[adj >> 12] & 0xFFFFF000 | (adj & 0xFFF)].  With an adjust
    field of 0, page-table entry 0 equal to 0x5000 and offset 0x0FA0 the
    address is 0x5FA0. *)
Theorem dma_paged_translation {G : Type} (s : @GState G) (object offset : Z) :
  dma_is_linear s object = false ->
  geforce_dma_addr s object offset =
    (let adj := u32 (offset + Z.shiftr (geforce_ramin_read32 s object) 20) in
     Z.lor (Z.land (geforce_ramin_read32 s (u32 (object + 8 + Z.shiftr adj 12 * 4)))
                   0xFFFFF000)
           (Z.land adj 0xFFF))
  /\ (Z.shiftr (geforce_ramin_read32 s object) 20 = 0 ->
      geforce_ramin_read32 s (u32 (object + 8)) = 0x5000 ->
      geforce_dma_addr s object 0x0FA0 = 0x5FA0).
Proof.
  unfold dma_is_linear, geforce_dma_addr, geforce_dma_pt_lookup.
  intros Hlin. rewrite Hlin. split; [reflexivity|].
  intros Hadj Hpt. rewrite Hadj.
  replace (Z.shiftr (u32 (4000 + 0)) 12 * 4) with 0 by reflexivity.
  rewrite Z.add_0_r, Hpt. reflexivity.
Qed.

Lemma dma_paged_translation_witness :
  dma_is_linear paged0_desc_state 0 = false /\
  geforce_dma_addr paged0_desc_state 0 0x0FA0 = 0x5FA0.
Proof.
  split; [reflexivity|].
  apply (proj2 (dma_paged_translation paged0_desc_state 0 0x0FA0 eq_refl));
    reflexivity.
Defined.

(** C3: with adjust field 1 the offset 0xFFF lands in page 1 (0x9000),
    not at entry 0 plus the page offset (0x5FFF) as the spec computes. *)
Lemma dma_paged_translation_counterexample :
  dma_is_linear paged_desc_state 0 = false /\
  geforce_dma_addr paged_desc_state 0 0xFFF = 0x9000 /\
  spec_paged_addr paged_desc_state 0 0xFFF = 0x5FFF.
Proof. vm_compute. auto. Qed.

(** C7 (corrected): a linear descriptor resolves to
    [(base + adjust + offset) mod 2^32], the adjust field being
    [word0 >> 20] and the base the word at byte 8 of the descriptor (its
    third word, the slot of page-table entry 0) masked with 0xFFFFF000.
    With base 0x2000 and adjust 0x10 the offset 0x34 resolves to 0x2044. *)
Theorem dma_linear_translation {G : Type} (s : @GState G) (object offset : Z) :
  dma_is_linear s object = true ->
  geforce_dma_addr s object offset =
    u32 (Z.land (geforce_ramin_read32 s (u32 (object + 8))) 0xFFFFF000
         + Z.shiftr (geforce_ramin_read32 s object) 20 + offset)
  /\ (Z.land (geforce_ramin_read32 s (u32 (object + 8))) 0xFFFFF000 = 0x2000 ->
      Z.shiftr (geforce_ramin_read32 s object) 20 = 0x10 ->
      geforce_dma_addr s object 0x34 = 0x2044).
Proof.
  unfold dma_is_linear, geforce_dma_addr, geforce_dma_lin_lookup.
  intros Hlin. rewrite Hlin. split; [reflexivity|].
  intros Hbase Hadj. rewrite Hbase, Hadj. reflexivity.
Qed.

Lemma dma_linear_translation_witness :
  dma_is_linear lin_desc_state 0 = true /\
  geforce_dma_addr lin_desc_state 0 0x34 = 0x2044.
Proof.
  split; [reflexivity|].
  apply (proj2 (dma_linear_translation lin_desc_state 0 0x34 eq_refl));
    reflexivity.
Defined.

(** C7: the descriptor's second word is 0 and its third word 0x2000; the
    code resolves offset 0x34 to 0x2044 while a base taken from the second
    word gives 0x44. *)
Lemma dma_linear_translation_counterexample :
  dma_is_linear lin_desc_state 0 = true /\
  geforce_ramin_read32 lin_desc_state 4 = 0 /\
  geforce_dma_addr lin_desc_state 0 0x34 = 0x2044 /\
  spec_linear_addr lin_desc_state 0 0x34 = 0x44.
Proof. vm_compute. auto. Qed.

(** ** Handle table *)










Lemma pair_some_inj {A B : Type} (a c : A) (b d : B) :
  Some (a, b) = Some (c, d) -> a = c /\ b = d.
Proof. intros H. inversion H. split; reflexivity. Qed.












Lemma channels_ramin_write32 {G : Type} (s : @GState G) (addr val : Z) :
  channels (geforce_ramin_write32 s addr val) = channels s.
Proof.
  unfold geforce_ramin_write32, geforce_vram_write32. destruct (_ <? _); reflexivity.
Qed.

Lemma channels_bind_patch {G : Type} (s : @GState G) (chid subc : Z) :
  channels (bind_patch s chid subc) = channels s.
Proof.
  unfold bind_patch. destruct (sc_engine _ =? 1); [apply channels_ramin_write32 | reflexivity].
Qed.

Lemma channels_software_method_push {G : Type} (s : @GState G) (subc method param : Z) :
  channels (software_method_push s subc method param) = channels s.
Proof. reflexivity. Qed.

(** C9: when the handle lookup of a bind (method 0) completes without a
    match, [geforce_execute_command] completes and the subchannel keeps
    the object address and engine id it had before. *)
Theorem bind_unresolved_keeps_binding {G : Type} (class_op : Z -> Z -> Z -> Z -> Z -> @GState G -> G * Mem)
  (fuel : nat) (s : @GState G) (chid subc param : Z) :
  geforce_ramht_lookup fuel (bind_patch s chid subc) param chid = Some None ->
  exists s', geforce_execute_command class_op fuel s chid subc 0 param = Some (s', true)
    /\ sc_object (schs (channels s' chid) subc) = sc_object (schs (channels s chid) subc)
    /\ sc_engine (schs (channels s' chid) subc) = sc_engine (schs (channels s chid) subc).
Proof.
  intros Hl. unfold geforce_execute_command. change (0 =? 0) with true. cbv iota zeta.
  rewrite Hl. eexists. split; [reflexivity|].
  match goal with |- context [if ?b then software_method_push ?x _ _ _ else ?x] =>
    assert (Hc : channels (if b then software_method_push x subc 0 param else x) = channels x)
      by (destruct b; reflexivity) end.
  rewrite Hc. unfold set_channel, with_channels. cbn [channels].
  unfold upd. rewrite Z.eqb_refl. cbn [schs with_schs]. rewrite Z.eqb_refl.
  rewrite channels_bind_patch.
  destruct (sc_engine (schs (channels s chid) subc) =? 1); cbn; split; reflexivity.
Qed.

Lemma bind_unresolved_keeps_binding_witness :
  geforce_ramht_lookup 512 (bind_patch ramht_bound_state 5 0) 0x9999 5 = Some None /\
  exists s', geforce_execute_command (fun _ _ _ _ _ _ => (tt, mem ramht_bound_state))
               512 ramht_bound_state 5 0 0 0x9999 = Some (s', true)
    /\ sc_object (schs (channels s' 5) 0) = 0x1000
    /\ sc_engine (schs (channels s' 5) 0) = 1.
Proof.
  assert (Hl : geforce_ramht_lookup 512 (bind_patch ramht_bound_state 5 0) 0x9999 5 = Some None)
    by (vm_compute; reflexivity).
  split; [exact Hl|].
  exact (bind_unresolved_keeps_binding (fun _ _ _ _ _ _ => (tt, mem ramht_bound_state))
           512 ramht_bound_state 5 0 0x9999 Hl).
Defined.

(** ** Frame of a command *)

Section Frame.
Context {G : Type}.
Implicit Types s x y : @GState G.

Lemma keeps_refl s : keeps s s.
Proof. repeat split; reflexivity. Qed.

Lemma keeps_if s (b : bool) x y : keeps s x -> keeps s y -> keeps s (if b then x else y).
Proof. destruct b; auto. Qed.

Lemma keeps_with_mem s x m : keeps s x -> keeps s (with_mem x m).
Proof. exact (fun H => H). Qed.

Lemma keeps_with_gfx s x g : keeps s x -> keeps s (with_gfx x g).
Proof. exact (fun H => H). Qed.

Lemma keeps_with_graph s x g : keeps s x -> keeps s (with_graph x g).
Proof. exact (fun H => H). Qed.

Lemma keeps_set_ref_cnt s x v : keeps s x -> keeps s (set_ref_cnt x v).
Proof. exact (fun H => H). Qed.

Lemma keeps_software_method_push s x subc method param :
  keeps s x -> keeps s (software_method_push x subc method param).
Proof. exact (fun H => H). Qed.

Lemma keeps_set_channel s x c ch :
  keeps s x -> dma_state ch = dma_state (channels x c) -> keeps s (set_channel x c ch).
Proof.
  intros (H6 & H7 & H1 & H2 & H3 & H4 & H5) Hd. repeat split; try assumption.
  intros c'. cbn. unfold upd. destruct (c' =? c) eqn:E.
  - apply Z.eqb_eq in E. subst. rewrite Hd. apply H5.
  - apply H5.
Qed.

Lemma keeps_vram_write32 s x a v : keeps s x -> keeps s (geforce_vram_write32 x a v).
Proof. intros H. unfold geforce_vram_write32. destruct (_ <? _); exact H. Qed.

Lemma keeps_vram_write64 s x a v : keeps s x -> keeps s (geforce_vram_write64 x a v).
Proof. intros H. unfold geforce_vram_write64. destruct (_ <? _); exact H. Qed.

Lemma keeps_ramin_write32 s x a v : keeps s x -> keeps s (geforce_ramin_write32 x a v).
Proof. apply keeps_vram_write32. Qed.

Lemma keeps_dma_write32 s x o a v : keeps s x -> keeps s (geforce_dma_write32 x o a v).
Proof.
  intros H. unfold geforce_dma_write32. destruct (dma_is_physical x o);
    [exact H | apply keeps_vram_write32; exact H].
Qed.

Lemma keeps_dma_write64 s x o a v : keeps s x -> keeps s (geforce_dma_write64 x o a v).
Proof.
  intros H. unfold geforce_dma_write64. destruct (dma_is_physical x o);
    [exact H | apply keeps_vram_write64; exact H].
Qed.

Lemma keeps_bind_patch s x chid subc : keeps s x -> keeps s (bind_patch x chid subc).
Proof.
  intros H. unfold bind_patch. destruct (_ =? 1); [apply keeps_ramin_write32|]; exact H.
Qed.

Lemma keeps_notify_step s x chid subc : keeps s x -> keeps s (notify_step x chid subc).
Proof.
  intros H. unfold notify_step. cbv zeta.
  destruct (notify_pending (channels x chid)); [|exact H].
  apply keeps_if; [apply keeps_with_graph|];
    (apply keeps_if;
     [apply keeps_dma_write32, keeps_dma_write32, keeps_dma_write64|];
     (apply keeps_set_channel; [exact H | reflexivity])).
Qed.

End Frame.

(** Every command [geforce_execute_command] completes reports success
    ([true]) and keeps the ring cursors and the method state of every
    channel. *)
Lemma execute_command_keeps {G : Type} (class_op : Z -> Z -> Z -> Z -> Z -> @GState G -> G * Mem)
  (fuel : nat) (s s' : @GState G) (chid subc method param : Z) (b : bool) :
  geforce_execute_command class_op fuel s chid subc method param = Some (s', b) ->
  b = true /\ keeps s s'.
Proof.
  unfold geforce_execute_command. cbv zeta. intros E.
  destruct (method =? 0).
  { destruct (geforce_ramht_lookup fuel _ param chid) as [r|]; [|discriminate].
    destruct (pair_some_inj _ _ _ _ E) as [<- <-]. split; [reflexivity|].
    apply keeps_if; [apply keeps_software_method_push|];
      (apply keeps_set_channel; [apply keeps_bind_patch, keeps_refl | reflexivity]). }
  destruct (method =? 20).
  { destruct (pair_some_inj _ _ _ _ E) as [<- <-]. split; [reflexivity|]. apply keeps_set_ref_cnt, keeps_refl. }
  destruct (64 <=? method).
  2:{ destruct (pair_some_inj _ _ _ _ E) as [<- <-]. split; [reflexivity|]. apply keeps_refl. }
  destruct (sc_engine (schs (channels s chid) subc) =? 1).
  2:{ destruct (pair_some_inj _ _ _ _ E) as [<- <-]. split; [reflexivity|].
      apply keeps_if; [apply keeps_software_method_push|]; apply keeps_refl. }
  destruct (if (96 <=? method) && (method <? 128) then _ else _) as [p|]; [|discriminate].
  destruct (pair_some_inj _ _ _ _ E) as [<- <-]. split; [reflexivity|].
  assert (H1 : keeps s (if known_class (Z.land (Z.land (geforce_ramin_read32 s
                 (sc_object (schs (channels s chid) subc))) (class_mask (cfg s))) 255)
                 then let (g, m) := class_op (Z.land (geforce_ramin_read32 s
                 (sc_object (schs (channels s chid) subc))) (class_mask (cfg s))) chid subc method p s
                 in with_gfx (with_mem s m) g else s)).
  { apply keeps_if; [|apply keeps_refl].
    destruct (class_op _ _ _ _ _ _). apply keeps_with_gfx, keeps_with_mem, keeps_refl. }
  apply keeps_notify_step with (chid := chid) (subc := subc) in H1.
  apply keeps_if; [|apply keeps_if];
    try (apply keeps_set_channel; [exact H1 | reflexivity]); exact H1.
Qed.

(** ** The decode loop *)

Lemma triple_some_inj {A B C : Type} (a a' : A) (b b' : B) (c c' : C) :
  Some (a, b, c) = Some (a', b', c') -> a = a' /\ b = b' /\ c = c'.
Proof. intros H. inversion H. repeat split; reflexivity. Qed.

Lemma u32_add_u32 (x y : Z) : u32 (u32 x + y) = u32 (x + y).
Proof. unfold u32. apply Z.add_mod_idemp_l. lia. Qed.

Section Loop.
Context {G : Type}.
Variable class_op : Z -> Z -> Z -> Z -> Z -> @GState G -> G * Mem.
Implicit Types s : @GState G.

Lemma set_dma_get_same s : set_dma_get s (fifo_cache1_dma_get (pull s)) = s.
Proof. destruct s as [c m r f [] c1 g t chs x]. reflexivity. Qed.

Lemma set_dma_get_twice s v w : set_dma_get (set_dma_get s v) w = set_dma_get s w.
Proof. reflexivity. Qed.

(** An iteration of the loop never [break]s. *)
Lemma fifo_step_continues fuel s chid s' d c :
  fifo_step class_op fuel s chid = Some (s', d, c) -> c = true.
Proof.
  unfold fifo_step. cbv zeta.
  destruct (negb (ds_mcnt (dma_state (channels s chid)) =? 0)).
  - match goal with |- context [geforce_execute_command ?a ?b ?c ?d ?e ?f ?g] =>
      destruct (geforce_execute_command a b c d e f g) as [[s2 ok]|] eqn:Ex end;
      [|discriminate].
    rewrite (proj1 (execute_command_keeps _ _ _ _ _ _ _ _ _ Ex)). cbn [negb].
    intros E. exact (eq_sym (proj2 (proj2 (triple_some_inj _ _ _ _ _ _ E)))).
  - intros E. exact (eq_sym (proj2 (proj2 (triple_some_inj _ _ _ _ _ _ E)))).
Qed.

(** The loop only ends on a drained ring. *)
Lemma fifo_loop_drained n fuel s chid s' tr :
  fifo_loop class_op n fuel s chid = Some (s', tr) ->
  fifo_cache1_dma_get (pull s') = fifo_cache1_dma_put (pull s').
Proof.
  revert s tr. induction n as [|n IH]; intros s tr; cbn [fifo_loop]; [discriminate|].
  destruct (fifo_cache1_dma_get (pull s) =? fifo_cache1_dma_put (pull s)) eqn:Eg.
  - intros E. destruct (pair_some_inj _ _ _ _ E) as [<- _]. apply Z.eqb_eq. exact Eg.
  - destruct (fifo_step class_op fuel s chid) as [[[s1 d] c]|] eqn:Es; [|discriminate].
    rewrite (fifo_step_continues _ _ _ _ _ _ Es).
    destruct (fifo_loop class_op n fuel s1 chid) as [[s2 tr2]|] eqn:El; [|discriminate].
    intros E. destruct (pair_some_inj _ _ _ _ E) as [<- _]. exact (IH _ _ El).
Qed.

Lemma fifo_loop_step n fuel s chid s' d :
  fifo_cache1_dma_get (pull s) <> fifo_cache1_dma_put (pull s) ->
  fifo_step class_op fuel s chid = Some (s', d, true) ->
  fifo_loop class_op (S n) fuel s chid =
    option_map (fun r => (fst r, d ++ snd r)) (fifo_loop class_op n fuel s' chid).
Proof.
  intros Hne Hs. cbn [fifo_loop]. rewrite (proj2 (Z.eqb_neq _ _) Hne), Hs.
  destruct (fifo_loop class_op n fuel s' chid) as [[]|]; reflexivity.
Qed.

Lemma execute_command_some fuel s chid subc method param :
  (method =? 0) = false -> ((96 <=? method) && (method <? 128)) = false ->
  exists r, geforce_execute_command class_op fuel s chid subc method param = Some r.
Proof.
  intros H0 Hr. unfold geforce_execute_command. cbv zeta. rewrite H0, Hr.
  destruct (method =? 20); [eexists; reflexivity|].
  destruct (64 <=? method); [|eexists; reflexivity].
  destruct (sc_engine _ =? 1); eexists; reflexivity.
Qed.

(** A parameter word for a method outside the handle-resolving range: one
    dispatch, the word consumed, the method advanced (increment mode) and
    the count decremented. *)
Lemma fifo_step_param fuel s chid m sub k :
  dma_state (channels s chid) = mkDataState m sub k false -> k <> 0 ->
  (m =? 0) = false -> ((96 <=? m) && (m <? 128)) = false ->
  let get := fifo_cache1_dma_get (pull s) in
  let word := geforce_dma_read32 s (u32 (Z.shiftl (fifo_cache1_dma_instance (pull s)) 4)) get in
  exists s', fifo_step class_op fuel s chid = Some (s', [mkDispatch sub m word get], true)
    /\ dma_state (channels s' chid) = mkDataState (u32 (m + 1)) sub (u32 (k - 1)) false
    /\ fifo_cache1_dma_get (pull s') = u32 (get + 4)
    /\ fifo_cache1_dma_put (pull s') = fifo_cache1_dma_put (pull s)
    /\ fifo_cache1_dma_instance (pull s') = fifo_cache1_dma_instance (pull s).
Proof.
  intros Hds Hk H0 Hr get word. unfold fifo_step. cbv zeta.
  set (ds0 := dma_state (channels s chid)) in *. rewrite Hds. cbn [ds_mcnt ds_subc ds_mthd].
  rewrite (proj2 (Z.eqb_neq _ _) Hk). cbn [negb].
  set (s1 := set_dma_get s _).
  destruct (execute_command_some fuel s1 chid sub m word H0 Hr) as [[s2 ok] Ex].
  fold get word. rewrite Ex.
  destruct (execute_command_keeps _ _ _ _ _ _ _ _ _ Ex) as [-> (_ & _ & Hg & Hp & Hi & _ & Hd)].
  cbn [negb]. rewrite (Hd chid).
  change (dma_state (channels s1 chid)) with ds0. rewrite Hds. cbn [ds_ni ds_mthd ds_subc ds_mcnt].
  eexists. split; [reflexivity|].
  cbn [set_channel with_channels channels pull dma_state with_dma_state].
  unfold upd. rewrite Z.eqb_refl. split; [reflexivity|].
  rewrite Hg, Hp, Hi. split; [reflexivity|]. split; reflexivity.
Qed.

(** The header word 0x000C4400: run length 3, subchannel 2, method
    0x100, increment mode. *)
Lemma fifo_step_header_c4400 fuel s chid :
  ds_mcnt (dma_state (channels s chid)) = 0 ->
  geforce_dma_read32 s (u32 (Z.shiftl (fifo_cache1_dma_instance (pull s)) 4))
    (fifo_cache1_dma_get (pull s)) = 0x000C4400 ->
  fifo_step class_op fuel s chid =
    Some (set_channel (set_dma_get s (u32 (fifo_cache1_dma_get (pull s) + 4))) chid
            (with_dma_state (channels s chid) (mkDataState 0x100 2 3 false)), [], true).
Proof.
  intros Hm Hw. unfold fifo_step. cbv zeta.
  set (ds0 := dma_state (channels s chid)) in *.
  set (w := geforce_dma_read32 s _ _) in *. rewrite Hm, Hw. reflexivity.
Qed.

End Loop.

(** C6: a method-header word 0x000C4400 (run length 3, subchannel 2,
    method 0x100, increment mode) fetched with no run pending makes the
    next three iterations dispatch methods 0x100, 0x101 and 0x102 on
    subchannel 2, each taking the next ring word as its parameter (the
    offsets get+4, get+8, get+12), after which the pending run length is
    0 and the loop goes on from get+16. The ring must not end before the
    three parameters. *)
Theorem method_header_run3 {G : Type} (class_op : Z -> Z -> Z -> Z -> Z -> @GState G -> G * Mem)
  (fuel : nat) (s : @GState G) (chid : Z) :
  let get := fifo_cache1_dma_get (pull s) in
  let put := fifo_cache1_dma_put (pull s) in
  ds_mcnt (dma_state (channels s chid)) = 0 ->
  geforce_dma_read32 s (u32 (Z.shiftl (fifo_cache1_dma_instance (pull s)) 4)) get = 0x000C4400 ->
  get <> put -> u32 (get + 4) <> put -> u32 (get + 8) <> put -> u32 (get + 12) <> put ->
  exists s' ds,
    map (fun d => (dp_subc d, dp_mthd d, dp_offset d)) ds =
      [(2, 0x100, u32 (get + 4)); (2, 0x101, u32 (get + 8)); (2, 0x102, u32 (get + 12))]
    /\ ds_mcnt (dma_state (channels s' chid)) = 0
    /\ fifo_cache1_dma_get (pull s') = u32 (get + 16)
    /\ forall n, fifo_loop class_op (4 + n) fuel s chid =
         option_map (fun r => (fst r, ds ++ snd r)) (fifo_loop class_op n fuel s' chid).
Proof.
  intros get put Hm Hw H0 H4 H8 H12.
  pose proof (fifo_step_header_c4400 class_op fuel s chid Hm Hw) as S1.
  set (s1 := set_channel _ chid _) in S1.
  assert (D1 : dma_state (channels s1 chid) = mkDataState 0x100 2 3 false).
  { cbn. unfold upd. rewrite Z.eqb_refl. reflexivity. }
  destruct (fifo_step_param class_op fuel s1 chid 0x100 2 3 D1 ltac:(lia) eq_refl eq_refl)
    as (s2 & S2 & D2 & G2 & P2 & I2).
  destruct (fifo_step_param class_op fuel s2 chid 0x101 2 2 D2 ltac:(lia) eq_refl eq_refl)
    as (s3 & S3 & D3 & G3 & P3 & I3).
  destruct (fifo_step_param class_op fuel s3 chid 0x102 2 1 D3 ltac:(lia) eq_refl eq_refl)
    as (s4 & S4 & D4 & G4 & P4 & I4).
  assert (G1 : fifo_cache1_dma_get (pull s1) = u32 (get + 4)) by reflexivity.
  assert (P1 : fifo_cache1_dma_put (pull s1) = put) by reflexivity.
  assert (E2 : fifo_cache1_dma_get (pull s2) = u32 (get + 8)).
  { rewrite G2, G1, u32_add_u32. f_equal. lia. }
  assert (E3 : fifo_cache1_dma_get (pull s3) = u32 (get + 12)).
  { rewrite G3, E2, u32_add_u32. f_equal. lia. }
  assert (E4 : fifo_cache1_dma_get (pull s4) = u32 (get + 16)).
  { rewrite G4, E3, u32_add_u32. f_equal. lia. }
  exists s4.
  match type of S2 with _ = Some (_, ?a, _) =>
  match type of S3 with _ = Some (_, ?b, _) =>
  match type of S4 with _ = Some (_, ?c, _) => exists (a ++ b ++ c) end end end.
  split; [|split; [|split]].
  - cbn [map app dp_subc dp_mthd dp_offset]. rewrite E2, E3. reflexivity.
  - rewrite D4. reflexivity.
  - exact E4.
  - intros n. cbn [Nat.add].
    rewrite (fifo_loop_step class_op _ fuel s chid s1 [] H0 S1).
    rewrite (fifo_loop_step class_op _ fuel s1 chid s2 _ ltac:(rewrite G1, P1; exact H4) S2).
    rewrite (fifo_loop_step class_op _ fuel s2 chid s3 _ ltac:(rewrite E2, P2, P1; exact H8) S3).
    rewrite (fifo_loop_step class_op _ fuel s3 chid s4 _ ltac:(rewrite E3, P3, P2, P1; exact H12) S4).
    destruct (fifo_loop class_op n fuel s4 chid) as [[]|]; reflexivity.
Qed.

Lemma method_header_run3_witness :
  exists s' ds,
    map (fun d => (dp_subc d, dp_mthd d, dp_offset d)) ds = [(2, 0x100, 4); (2, 0x101, 8); (2, 0x102, 12)]
    /\ ds_mcnt (dma_state (channels s' 0)) = 0
    /\ fifo_cache1_dma_get (pull s') = 16
    /\ fifo_loop no_class_op (4 + 1) 8 run3_state 0 =
         option_map (fun r => (fst r, ds ++ snd r)) (fifo_loop no_class_op 1 8 s' 0).
Proof.
  destruct (method_header_run3 no_class_op 8 run3_state 0 eq_refl
              ltac:(vm_compute; reflexivity) ltac:(vm_compute; discriminate)
              ltac:(vm_compute; discriminate) ltac:(vm_compute; discriminate)
              ltac:(vm_compute; discriminate)) as (s' & ds & Hm & Hc & Hg & Hl).
  exists s', ds. split; [exact Hm|]. split; [exact Hc|]. split; [exact Hg|]. exact (Hl 1%nat).
Defined.

Section Software.
Context {G : Type}.
Variable class_op : Z -> Z -> Z -> Z -> Z -> @GState G -> G * Mem.
Implicit Types s : @GState G.

Lemma execute_command_software fuel s chid subc method param :
  64 <= method -> sc_engine (schs (channels s chid) subc) = 0 ->
  geforce_execute_command class_op fuel s chid subc method param =
    Some (software_method_push s subc method param, true).
Proof.
  intros Hm He. unfold geforce_execute_command. cbv zeta.
  set (e := sc_engine (schs (channels s chid) subc)) in *. rewrite He.
  rewrite (proj2 (Z.eqb_neq method 0)) by lia.
  rewrite (proj2 (Z.eqb_neq method 20)) by lia.
  rewrite (proj2 (Z.leb_le 64 method)) by lia. reflexivity.
Qed.

(** The iteration of a self jump leaves the device as it was. *)
Lemma fifo_step_self_jump fuel s chid :
  let word := geforce_dma_read32 s (u32 (Z.shiftl (fifo_cache1_dma_instance (pull s)) 4))
                (fifo_cache1_dma_get (pull s)) in
  ds_mcnt (dma_state (channels s chid)) = 0 ->
  Z.land word 0xe0000003 <> 0x20000000 -> Z.land word 3 = 1 ->
  Z.land word 0xfffffffc = fifo_cache1_dma_get (pull s) ->
  fifo_step class_op fuel s chid = Some (s, [], true).
Proof.
  intros word Hm Ho Hj Ht. unfold fifo_step. cbv zeta.
  set (ds0 := dma_state (channels s chid)) in *. fold word. rewrite Hm.
  cbn [Z.eqb negb]. rewrite (proj2 (Z.eqb_neq _ _) Ho), Hj. cbn [Z.eqb Pos.eqb].
  rewrite Ht, set_dma_get_twice, set_dma_get_same. reflexivity.
Qed.

Lemma fifo_loop_self_jump n fuel s chid :
  fifo_cache1_dma_get (pull s) <> fifo_cache1_dma_put (pull s) ->
  fifo_step class_op fuel s chid = Some (s, [], true) ->
  fifo_loop class_op n fuel s chid = None.
Proof.
  intros Hne Hs. induction n as [|n IH]; [reflexivity|].
  rewrite (fifo_loop_step class_op n fuel s chid s [] Hne Hs), IH. reflexivity.
Qed.

Lemma fifo_process_live n s chid :
  live_chid s = chid ->
  fifo_cache1_dma_get (pull s) <> fifo_cache1_dma_put (pull s) ->
  geforce_fifo_process class_op n s chid = fifo_loop class_op n n s chid.
Proof.
  intros Hl Hne. unfold geforce_fifo_process. cbv zeta.
  set (l := live_chid s) in *. rewrite Hl, Z.eqb_refl.
  rewrite (proj2 (Z.eqb_neq _ _)) by congruence. reflexivity.
Qed.

End Software.

(** C1 (corrected): the software-method path does not rewind the get
    cursor and does not end the loop. [geforce_execute_command] always
    reports success, so a parameter word for a method of an engine-0
    (unbound) subchannel queues the pair [(method, param)] in CACHE1,
    raises bit 0 of the PFIFO interrupt, leaves get past the word (get+4)
    and lets the loop continue; [geforce_fifo_process] returns only on a
    drained ring (get = put) or from its early exit with nothing done. *)
Theorem software_method_no_rewind {G : Type} (class_op : Z -> Z -> Z -> Z -> Z -> @GState G -> G * Mem) :
  (forall fuel s chid,
     let ds := dma_state (channels s chid) in
     let get := fifo_cache1_dma_get (pull s) in
     let word := geforce_dma_read32 s (u32 (Z.shiftl (fifo_cache1_dma_instance (pull s)) 4)) get in
     let put := fifo_cache1_put (cache1 s) in
     ds_mcnt ds <> 0 -> 64 <= ds_mthd ds -> sc_engine (schs (channels s chid) (ds_subc ds)) = 0 ->
     exists s', fifo_step class_op fuel s chid = Some (s', [mkDispatch (ds_subc ds) (ds_mthd ds) word get], true)
       /\ fifo_cache1_dma_get (pull s') = u32 (get + 4)
       /\ fifo_cache1_method (cache1 s') (put / 4) =
            u32 (Z.lor (Z.shiftl (ds_mthd ds) 2) (Z.shiftl (ds_subc ds) 13))
       /\ fifo_cache1_data (cache1 s') (put / 4) = word
       /\ Z.testbit (fifo_intr (cache1 s')) 0 = true
       /\ ds_mcnt (dma_state (channels s' chid)) = u32 (ds_mcnt ds - 1))
  /\ (forall fuel s chid s' tr, geforce_fifo_process class_op fuel s chid = Some (s', tr) ->
        (s' = s /\ tr = []) \/ fifo_cache1_dma_get (pull s') = fifo_cache1_dma_put (pull s')).
Proof.
  split.
  - intros fuel s chid ds get word put Hc Hm He. unfold fifo_step. cbv zeta.
    fold ds get word. rewrite (proj2 (Z.eqb_neq _ _) Hc). cbn [negb].
    rewrite (execute_command_software class_op fuel (set_dma_get s (u32 (get + 4))) chid _ _ word Hm He).
    cbn [negb].
    eexists. split; [reflexivity|].
    cbn [set_channel with_channels software_method_push with_cache1 cache1 pull channels
         fifo_cache1_method fifo_cache1_data fifo_intr set_dma_get with_pull fifo_cache1_dma_get].
    unfold upd. rewrite !Z.eqb_refl. split; [reflexivity|]. split; [reflexivity|].
    split; [reflexivity|]. split; [rewrite Z.lor_spec, orb_true_r; reflexivity|]. reflexivity.
  - intros fuel s chid s' tr. unfold geforce_fifo_process. cbv zeta.
    destruct (live_chid s =? chid).
    + destruct (_ =? _) eqn:E.
      * intros H. destruct (pair_some_inj _ _ _ _ H). left. split; congruence.
      * intros H. right. exact (fifo_loop_drained class_op _ _ _ _ _ _ H).
    + destruct (_ =? _).
      * intros H. destruct (pair_some_inj _ _ _ _ H). left. split; congruence.
      * intros H. right. exact (fifo_loop_drained class_op _ _ _ _ _ _ H).
Qed.

Lemma software_method_no_rewind_witness :
  exists s', fifo_step no_class_op 8 sw_mid_state 0 = Some (s', [mkDispatch 0 0x100 11 4], true)
    /\ fifo_cache1_dma_get (pull s') = 8
    /\ fifo_cache1_method (cache1 s') 0 = 0x400
    /\ fifo_cache1_data (cache1 s') 0 = 11
    /\ Z.testbit (fifo_intr (cache1 s')) 0 = true
    /\ ds_mcnt (dma_state (channels s' 0)) = 1.
Proof.
  destruct (proj1 (software_method_no_rewind no_class_op) 8%nat sw_mid_state 0
              ltac:(vm_compute; discriminate) ltac:(vm_compute; discriminate)
              ltac:(vm_compute; reflexivity)) as (s' & H1 & H2 & H3 & H4 & H5 & H6).
  exists s'. split; [exact H1|]. split; [exact H2|]. split; [exact H3|].
  split; [exact H4|]. split; [exact H5|]. exact H6.
Defined.

(** C1: the ring [header(method 0x100, subchannel 0, 2 parameters); 11;
    22] on an unbound subchannel: both parameters are dispatched, both
    pairs queued, and get ends at put (12), not rewound to the first
    parameter's offset. *)
Lemma software_method_no_rewind_counterexample :
  option_map (fun r => (fifo_cache1_dma_get (pull (fst r)), map dp_offset (snd r),
                        fifo_cache1_put (cache1 (fst r)), fifo_intr (cache1 (fst r))))
    (geforce_fifo_process no_class_op 16 sw_state 0) = Some (12, [4; 8], 8, 1).
Proof. vm_compute. reflexivity. Qed.

(** C2 (code bug): the decode loop of [geforce_fifo_process] runs
    forever on a jump word whose target is its own offset: each iteration
    leaves the device as it was, so no amount of fuel finishes it. *)
Theorem fifo_process_self_jump {G : Type} (class_op : Z -> Z -> Z -> Z -> Z -> @GState G -> G * Mem)
  (fuel : nat) (s : @GState G) (chid : Z) :
  let get := fifo_cache1_dma_get (pull s) in
  let word := geforce_dma_read32 s (u32 (Z.shiftl (fifo_cache1_dma_instance (pull s)) 4)) get in
  live_chid s = chid -> get <> fifo_cache1_dma_put (pull s) ->
  ds_mcnt (dma_state (channels s chid)) = 0 ->
  Z.land word 0xe0000003 <> 0x20000000 -> Z.land word 3 = 1 -> Z.land word 0xfffffffc = get ->
  geforce_fifo_process class_op fuel s chid = None.
Proof.
  intros get word Hl Hne Hm Ho Hj Ht.
  rewrite (fifo_process_live class_op fuel s chid Hl Hne).
  exact (fifo_loop_self_jump class_op fuel fuel s chid Hne
           (fifo_step_self_jump class_op fuel s chid Hm Ho Hj Ht)).
Qed.

Lemma fifo_process_self_jump_witness :
  geforce_fifo_process no_class_op 8 selfjump_state 0 = None.
Proof.
  apply (fifo_process_self_jump no_class_op 8 selfjump_state 0);
    vm_compute; first [reflexivity | discriminate].
Defined.

(** C2: the ring [jump 0] with put 8 on the live channel 0: an iteration
    of the loop gives back the state it started from, and the loop has
    not returned after 4096 iterations. *)
Lemma fifo_process_self_jump_counterexample :
  fifo_step no_class_op 4096 selfjump_state 0 = Some (selfjump_state, [], true) /\
  geforce_fifo_process no_class_op 4096 selfjump_state 0 = None.
Proof.
  assert (Hs : fifo_step no_class_op 4096 selfjump_state 0 = Some (selfjump_state, [], true)).
  { apply fifo_step_self_jump; vm_compute; first [reflexivity | discriminate]. }
  split; [exact Hs|].
  rewrite (fifo_process_live no_class_op 4096 selfjump_state 0 eq_refl ltac:(vm_compute; discriminate)).
  apply fifo_loop_self_jump; [vm_compute; discriminate | exact Hs].
Qed.

(** C10 (code bug): from a CACHE1 put that is a multiple of 4 below
    [GEFORCE_CACHE1_SIZE * 4], a software-method deferral writes one pair inside the 64-entry queue,
    raises bit 0 of the PFIFO interrupt, and leaves put a multiple of 4
    below [GEFORCE_CACHE1_SIZE * 4] (put + 4, or 0 at the end of the
    queue). *)
Theorem software_method_push_put {G : Type} (s : @GState G) (subc method param : Z) :
  let put := fifo_cache1_put (cache1 s) in
  let c' := cache1 (software_method_push s subc method param) in
  0 <= put < GEFORCE_CACHE1_SIZE * 4 -> put mod 4 = 0 ->
  put / 4 < GEFORCE_CACHE1_SIZE
  /\ fifo_cache1_method c' (put / 4) = u32 (Z.lor (Z.shiftl method 2) (Z.shiftl subc 13))
  /\ fifo_cache1_data c' (put / 4) = param
  /\ Z.testbit (fifo_intr c') 0 = true
  /\ fifo_cache1_put c' = (if put + 4 =? GEFORCE_CACHE1_SIZE * 4 then 0 else put + 4)
  /\ 0 <= fifo_cache1_put c' < GEFORCE_CACHE1_SIZE * 4 /\ fifo_cache1_put c' mod 4 = 0.
Proof.
  intros put c' Hr Hm. unfold GEFORCE_CACHE1_SIZE in *.
  assert (Hu : u32 (put + 4) = put + 4) by (unfold u32; apply Z.mod_small; lia).
  assert (Hc : fifo_cache1_put c' = (if put + 4 =? 64 * 4 then 0 else put + 4)).
  { unfold c'. cbn [software_method_push with_cache1 cache1 fifo_cache1_method fifo_cache1_data fifo_intr fifo_cache1_put]. fold put. unfold GEFORCE_CACHE1_SIZE. rewrite Hu. reflexivity. }
  split; [apply Z.div_lt_upper_bound; lia|].
  unfold c'. cbn [software_method_push with_cache1 cache1 fifo_cache1_method fifo_cache1_data fifo_intr fifo_cache1_put]. fold put. unfold upd, GEFORCE_CACHE1_SIZE. rewrite Z.eqb_refl.
  split; [reflexivity|]. split; [reflexivity|].
  split; [rewrite Z.lor_spec, orb_true_r; reflexivity|].
  rewrite Hu. split; [reflexivity|].
  destruct (put + 4 =? 64 * 4) eqn:E; [split; [lia | reflexivity]|].
  apply Z.eqb_neq in E.
  assert (put <= 252).
  { pose proof (Z.div_mod put 4 ltac:(lia)) as D. rewrite Hm in D.
    assert (put / 4 < 64) by (apply Z.div_lt_upper_bound; lia). lia. }
  split; [lia|]. rewrite <- Z.add_mod_idemp_l, Hm by lia. reflexivity.
Qed.

Lemma software_method_push_put_witness :
  fifo_cache1_put (cache1 (software_method_push sw_state 0 0x100 11)) = 4 /\
  fifo_cache1_method (cache1 (software_method_push sw_state 0 0x100 11)) 0 = 0x400.
Proof.
  destruct (software_method_push_put sw_state 0 0x100 11
              ltac:(change (0 <= 0 < 64 * 4); lia) ltac:(vm_compute; reflexivity))
    as (_ & Hm & _ & _ & Hp & _).
  split; [rewrite Hp; vm_compute; reflexivity | exact Hm].
Defined.

(** C10: the guest writes 0x1000 to PFIFO_CACHE1_PUT (0x3210), stored
    unmasked, then rings [sw_state]'s two software-method parameters:
    the pairs go to entries 0x400 and 0x401 of the 64-entry queue and put
    becomes 0x1008, neither a wrap to 0 nor below 64 * 4. *)
Lemma software_method_push_put_counterexample :
  GEFORCE_CACHE1_SIZE <= 0x1000 / 4 /\
  option_map (fun r => (fifo_cache1_put (cache1 (fst r)),
                        fifo_cache1_method (cache1 (fst r)) 0x400,
                        fifo_cache1_data (cache1 (fst r)) 0x400,
                        fifo_cache1_data (cache1 (fst r)) 0x401))
    (geforce_fifo_process no_class_op 16 (geforce_mmio_write_pfifo sw_state 0x3210 0x1000) 0)
  = Some (0x1008, 0x400, 11, 22).
Proof. split; [vm_compute; discriminate | vm_compute; reflexivity]. Qed.

(** ** Context switch *)

Ltac upd_simpl :=
  unfold upd;
  repeat match goal with
  | |- context [?a =? ?b] =>
      first [ rewrite (proj2 (Z.eqb_eq a b)) by lia
            | rewrite (proj2 (Z.eqb_neq a b)) by lia ]
  end.

Lemma byte_mod (v k : Z) : 0 <= k -> Z.land (Z.land (Z.shiftr v k) 255) 255 = (v / 2^k) mod 256.
Proof.
  intros Hk. rewrite <- Z.land_assoc, Z.land_diag.
  change 255 with (Z.ones 8). rewrite Z.land_ones, Z.shiftr_div_pow2 by lia. reflexivity.
Qed.

Lemma load_store_same (m : Z -> Z) (x v : Z) :
  is_u32 v -> load_le32 (store_le32 m x v) x = v.
Proof.
  intros Hv. unfold is_u32 in Hv. unfold load_le32, store_le32, byte_at. upd_simpl.
  rewrite <- (Z.shiftr_0_r v) at 1.
  rewrite !byte_mod by lia. rewrite Z.pow_0_r, Z.div_1_r.
  pose proof (Z.div_mod v 256 ltac:(lia)) as E0.
  pose proof (Z.div_mod (v / 256) 256 ltac:(lia)) as E1.
  pose proof (Z.div_mod (v / 2^16) 256 ltac:(lia)) as E2.
  rewrite Z.div_div in E1 by lia. rewrite Z.div_div in E2 by lia.
  change (256 * 256) with (2^16) in E1. change (2^16 * 256) with (2^24) in E2.
  assert (H3 : (v / 2^24) mod 256 = v / 2^24).
  { apply Z.mod_small. split; [apply Z.div_pos; lia|]. apply Z.div_lt_upper_bound; lia. }
  change (2^8) with 256 in *. rewrite H3.
  pose proof (Z.mod_pos_bound v 256 ltac:(lia)).
  lia.
Qed.

Lemma load_store_other (m : Z -> Z) (x y v : Z) :
  x mod 4 = 0 -> y mod 4 = 0 -> x <> y ->
  load_le32 (store_le32 m y v) x = load_le32 m x.
Proof.
  intros Hx Hy Hne.
  pose proof (Z.div_mod x 4 ltac:(lia)) as Ex. pose proof (Z.div_mod y 4 ltac:(lia)) as Ey.
  rewrite Hx in Ex. rewrite Hy in Ey.
  assert (x / 4 <> y / 4) by lia.
  unfold load_le32, store_le32, byte_at. upd_simpl. reflexivity.
Qed.

Lemma lxor_mod4 (p f : Z) : 0 <= p -> 0 <= f -> p mod 4 = 0 -> f mod 4 = 0 ->
  Z.lxor p f mod 4 = 0.
Proof.
  intros Hp Hf Hpm Hfm.
  pose proof (Z.div_mod p 4 ltac:(lia)) as Ep. pose proof (Z.div_mod f 4 ltac:(lia)) as Ef.
  rewrite Hpm, Z.add_0_r in Ep. rewrite Hfm, Z.add_0_r in Ef.
  set (a := p / 4) in *. set (b := f / 4) in *. rewrite Ep, Ef.
  rewrite (Z.mul_comm 4 a), (Z.mul_comm 4 b).
  replace 4 with (2^2) by reflexivity.
  rewrite <- !Z.shiftl_mul_pow2 by lia. rewrite <- Z.shiftl_lxor.
  rewrite Z.shiftl_mul_pow2 by lia. apply Z.mod_mul. lia.
Qed.

Lemma lxor_inj_r (p q f : Z) : Z.lxor p f = Z.lxor q f -> p = q.
Proof.
  intros H. rewrite <- (Z.lxor_0_r p), <- (Z.lxor_0_r q), <- (Z.lxor_nilpotent f).
  rewrite <- !Z.lxor_assoc, H. reflexivity.
Qed.

Lemma live_chid_switch (p : Z) (chid : Z) :
  0 <= chid < 32 -> Z.land (Z.lor (Z.land p 0xFFFFFFE0) chid) 0x1F = chid.
Proof.
  intros Hc. rewrite Z.land_lor_distr_l, <- Z.land_assoc.
  change (Z.land 0xFFFFFFE0 0x1F) with 0. rewrite Z.land_0_r, Z.lor_0_l.
  change 0x1F with (Z.ones 5). rewrite Z.land_ones by lia. apply Z.mod_small. lia.
Qed.

Section Switch.
Context {G : Type}.
Implicit Types s : @GState G.

Lemma ramfc_address_split s c off :
  0 <= c < 32 -> 0 <= off < 0x40 ->
  geforce_ramfc_address s c off =
    geforce_ramfc_address s 0 0 + c * (if card_type (cfg s) <? 0x40 then 0x40 else 0x80) + off
  /\ geforce_ramfc_address s 0 0 mod 256 = 0
  /\ 0 <= geforce_ramfc_address s 0 0 <= 0xFFF0000.
Proof.
  intros Hc Ho. unfold geforce_ramfc_address. cbv zeta.
  assert (Hr : 0 <= Z.land (fifo_ramfc s) 0xFFF < 2^12).
  { change 0xFFF with (Z.ones 12). rewrite Z.land_ones by lia. apply Z.mod_pos_bound. lia. }
  set (r := Z.land (fifo_ramfc s) 0xFFF) in *.
  destruct (card_type (cfg s) <? 0x40); rewrite Z.shiftl_mul_pow2 by lia; unfold u32;
    rewrite (Z.mod_small (r * 2^_)) by lia; rewrite !Z.mod_small by lia;
    (split; [lia|]); (split; [|lia]).
  - change (2^8) with 256. apply Z.mod_divide; [lia|]. exists r. lia.
  - change (2^16) with 65536. apply Z.mod_divide; [lia|]. exists (r * 256). lia.
Qed.

Lemma cfg_ramin_write32 s a v : cfg (geforce_ramin_write32 s a v) = cfg s.
Proof. unfold geforce_ramin_write32, geforce_vram_write32. destruct (_ <? _); reflexivity. Qed.

Lemma ramfc_ramin_write32 s a v : fifo_ramfc (geforce_ramin_write32 s a v) = fifo_ramfc s.
Proof. unfold geforce_ramin_write32, geforce_vram_write32. destruct (_ <? _); reflexivity. Qed.

Lemma pull_ramin_write32 s a v : pull (geforce_ramin_write32 s a v) = pull s.
Proof. unfold geforce_ramin_write32, geforce_vram_write32. destruct (_ <? _); reflexivity. Qed.

Lemma ramfc_address_ramin_write32 s a v c off :
  geforce_ramfc_address (geforce_ramin_write32 s a v) c off = geforce_ramfc_address s c off.
Proof. unfold geforce_ramfc_address. rewrite cfg_ramin_write32, ramfc_ramin_write32. reflexivity. Qed.

(** Reading back a RAMIN word after a write: the written value at the
    same address (when the word is in VRAM), the old contents at another
    word-aligned address. *)
Lemma ramin_read_write s a b v :
  let f := ramin_flip (cfg s) in
  Z.lxor a f mod 4 = 0 -> Z.lxor b f mod 4 = 0 ->
  (a = b -> u32 (Z.lxor a f + 3) < memsize (cfg s) /\ is_u32 v) ->
  geforce_ramin_read32 (geforce_ramin_write32 s b v) a =
    if a =? b then v else geforce_ramin_read32 s a.
Proof.
  intros f Ha Hb Hin. unfold geforce_ramin_read32, geforce_ramin_write32, geforce_vram_read32,
    geforce_vram_write32. fold f.
  destruct (a =? b) eqn:E.
  - apply Z.eqb_eq in E. subst b. destruct (Hin eq_refl) as [Hr Hv].
    rewrite (proj2 (Z.ltb_lt _ _) Hr). cbn [cfg mem vram with_mem]. fold f.
    rewrite (proj2 (Z.ltb_lt _ _) Hr). apply load_store_same. exact Hv.
  - apply Z.eqb_neq in E.
    assert (Hx : Z.lxor a f <> Z.lxor b f) by (intros H; apply E; exact (lxor_inj_r _ _ _ H)).
    destruct (u32 (Z.lxor b f + 3) <? memsize (cfg s)); [|reflexivity].
    cbn [cfg mem vram with_mem]. fold f.
    destruct (u32 (Z.lxor a f + 3) <? memsize (cfg s)); [|reflexivity].
    apply load_store_other; assumption.
Qed.

Lemma cfg_with_pull s p : cfg (with_pull s p) = cfg s.
Proof. reflexivity. Qed.
Lemma ramfc_with_pull s p : fifo_ramfc (with_pull s p) = fifo_ramfc s.
Proof. reflexivity. Qed.
Lemma pull_with_pull s p : pull (with_pull s p) = p.
Proof. reflexivity. Qed.
Lemma ramin_read32_with_pull s p X :
  geforce_ramin_read32 (with_pull s p) X = geforce_ramin_read32 s X.
Proof. reflexivity. Qed.
Lemma ramfc_address_with_pull s p c off :
  geforce_ramfc_address (with_pull s p) c off = geforce_ramfc_address s c off.
Proof. reflexivity. Qed.

Lemma cfg_ramfc_write32 s c o v : cfg (geforce_ramfc_write32 s c o v) = cfg s.
Proof. apply cfg_ramin_write32. Qed.
Lemma ramfc_ramfc_write32 s c o v : fifo_ramfc (geforce_ramfc_write32 s c o v) = fifo_ramfc s.
Proof. apply ramfc_ramin_write32. Qed.
Lemma ramfc_address_ramfc_write32 s c o v c' o' :
  geforce_ramfc_address (geforce_ramfc_write32 s c o v) c' o' = geforce_ramfc_address s c' o'.
Proof. apply ramfc_address_ramin_write32. Qed.

Lemma ramin_read_ramfc_write s c o X v :
  let f := ramin_flip (cfg s) in
  Z.lxor X f mod 4 = 0 -> Z.lxor (geforce_ramfc_address s c o) f mod 4 = 0 ->
  (X = geforce_ramfc_address s c o -> u32 (Z.lxor X f + 3) < memsize (cfg s) /\ is_u32 v) ->
  geforce_ramin_read32 (geforce_ramfc_write32 s c o v) X =
    if X =? geforce_ramfc_address s c o then v else geforce_ramin_read32 s X.
Proof. intros f. apply ramin_read_write. Qed.

Lemma ramfc_address_congr s s' c off :
  cfg s' = cfg s -> fifo_ramfc s' = fifo_ramfc s ->
  geforce_ramfc_address s' c off = geforce_ramfc_address s c off.
Proof. intros Hc Hr. unfold geforce_ramfc_address. rewrite Hc, Hr. reflexivity. Qed.

Lemma switch_frame s chid :
  cfg (geforce_fifo_switch s chid) = cfg s /\
  fifo_ramfc (geforce_fifo_switch s chid) = fifo_ramfc s /\
  fifo_cache1_push1 (pull (geforce_fifo_switch s chid)) =
    Z.lor (Z.land (fifo_cache1_push1 (pull s)) 0xFFFFFFE0) chid.
Proof.
  unfold geforce_fifo_switch. cbv zeta.
  rewrite cfg_with_pull, ramfc_with_pull, pull_with_pull.
  rewrite !cfg_ramfc_write32, !ramfc_ramfc_write32.
  split; [reflexivity|]. split; reflexivity.
Qed.

Lemma switch_live_regs s chid :
  live_regs (geforce_fifo_switch s chid) =
    (geforce_ramin_read32 (geforce_fifo_switch s chid) (geforce_ramfc_address s chid 0x0),
     geforce_ramin_read32 (geforce_fifo_switch s chid) (geforce_ramfc_address s chid 0x4),
     geforce_ramin_read32 (geforce_fifo_switch s chid) (geforce_ramfc_address s chid 0x8),
     geforce_ramin_read32 (geforce_fifo_switch s chid) (geforce_ramfc_address s chid 0xC),
     geforce_ramin_read32 (geforce_fifo_switch s chid) (geforce_ramfc_address s chid (ramfc_sro s))).
Proof.
  unfold geforce_fifo_switch. cbv zeta. unfold live_regs.
  rewrite pull_with_pull, !ramin_read32_with_pull.
  unfold geforce_ramfc_read32. rewrite !ramfc_address_ramfc_write32. reflexivity.
Qed.

Lemma ramfc_sro_cases s : ramfc_sro s = 0x2C \/ ramfc_sro s = 0x30.
Proof. unfold ramfc_sro. destruct (_ <? _); [left | right]; reflexivity. Qed.

Lemma live_chid_range s : 0 <= live_chid s < 32.
Proof.
  unfold live_chid. change 0x1F with (Z.ones 5). rewrite Z.land_ones by lia.
  apply Z.mod_pos_bound. lia.
Qed.

(** The offsets of the five saved registers in a RAMFC record. *)
Lemma ramfc_offsets_range s o :
  In o [0; 4; 8; 12; ramfc_sro s] -> 0 <= o < 0x40 /\ o mod 4 = 0.
Proof.
  intros Ho. destruct Ho as [<-|[<-|[<-|[<-|[<-|[]]]]]]; try (split; [lia | reflexivity]).
  destruct (ramfc_sro_cases s) as [-> | ->]; (split; [lia | reflexivity]).
Qed.

Lemma ramfc_address_aligned s c o :
  0 <= c < 32 -> In o [0; 4; 8; 12; ramfc_sro s] ->
  0 <= geforce_ramfc_address s c o /\ geforce_ramfc_address s c o mod 4 = 0.
Proof.
  intros Hc Ho. destruct (ramfc_offsets_range s o Ho) as [Hr Hm].
  destruct (ramfc_address_split s c o Hc Hr) as (E & Hb & Hb'). rewrite E.
  destruct (card_type (cfg s) <? 0x40); split; try lia.
  all: Z.to_euclidean_division_equations; lia.
Qed.

(** A word of RAMIN after a switch: the five saved registers at the
    outgoing channel's record, the old contents elsewhere. *)
Lemma switch_read s chid X :
  0 <= ramin_flip (cfg s) -> ramin_flip (cfg s) mod 4 = 0 -> 0 <= X -> X mod 4 = 0 ->
  (forall o, X = geforce_ramfc_address s (live_chid s) o -> In o [0; 4; 8; 12; ramfc_sro s] ->
     u32 (Z.lxor X (ramin_flip (cfg s)) + 3) < memsize (cfg s) /\
     is_u32 (fifo_cache1_dma_put (pull s)) /\ is_u32 (fifo_cache1_dma_get (pull s)) /\
     is_u32 (fifo_cache1_ref_cnt (pull s)) /\ is_u32 (fifo_cache1_dma_instance (pull s)) /\
     is_u32 (fifo_cache1_semaphore (pull s))) ->
  geforce_ramin_read32 (geforce_fifo_switch s chid) X =
    if X =? geforce_ramfc_address s (live_chid s) (ramfc_sro s) then fifo_cache1_semaphore (pull s)
    else if X =? geforce_ramfc_address s (live_chid s) 12 then fifo_cache1_dma_instance (pull s)
    else if X =? geforce_ramfc_address s (live_chid s) 8 then fifo_cache1_ref_cnt (pull s)
    else if X =? geforce_ramfc_address s (live_chid s) 4 then fifo_cache1_dma_get (pull s)
    else if X =? geforce_ramfc_address s (live_chid s) 0 then fifo_cache1_dma_put (pull s)
    else geforce_ramin_read32 s X.
Proof.
  intros Hf Hfm HX HXm Hin.
  assert (HXx : Z.lxor X (ramin_flip (cfg s)) mod 4 = 0) by (apply lxor_mod4; assumption).
  assert (Hax : forall o, In o [0; 4; 8; 12; ramfc_sro s] ->
            Z.lxor (geforce_ramfc_address s (live_chid s) o) (ramin_flip (cfg s)) mod 4 = 0).
  { intros o Ho. destruct (ramfc_address_aligned s (live_chid s) o (live_chid_range s) Ho).
    apply lxor_mod4; assumption. }
  unfold geforce_fifo_switch. cbv zeta. rewrite ramin_read32_with_pull.
  do 5 (rewrite ramin_read_ramfc_write;
    rewrite ?cfg_ramfc_write32, ?ramfc_address_ramfc_write32;
    [| exact HXx | apply Hax; cbn [In]; auto 6
     | intros E; destruct (Hin _ E ltac:(cbn [In]; auto 6)) as (Hr & Hv0 & Hv1 & Hv2 & Hv3 & Hv4);
       split; assumption]).
  reflexivity.
Qed.

Lemma ramfc_address_switch s chid c o :
  geforce_ramfc_address (geforce_fifo_switch s chid) c o = geforce_ramfc_address s c o.
Proof.
  destruct (switch_frame s chid) as (Hc & Hr & _). apply ramfc_address_congr; assumption.
Qed.

Lemma ramfc_sro_congr s s' : cfg s' = cfg s -> ramfc_sro s' = ramfc_sro s.
Proof. intros Hc. unfold ramfc_sro. rewrite Hc. reflexivity. Qed.

(** Records of distinct channels do not overlap, and the five words of a
    record are distinct. *)
Lemma ramfc_address_inj s c c' o o' :
  0 <= c < 32 -> 0 <= c' < 32 ->
  In o [0; 4; 8; 12; ramfc_sro s] -> In o' [0; 4; 8; 12; ramfc_sro s] ->
  geforce_ramfc_address s c o = geforce_ramfc_address s c' o' -> c = c' /\ o = o'.
Proof.
  intros Hc Hc' Ho Ho'.
  destruct (ramfc_offsets_range s o Ho) as [Hr _], (ramfc_offsets_range s o' Ho') as [Hr' _].
  rewrite (proj1 (ramfc_address_split s c o Hc Hr)), (proj1 (ramfc_address_split s c' o' Hc' Hr')).
  destruct (card_type (cfg s) <? 0x40); intros E; split; lia.
Qed.

(** The words a switch leaves alone. *)
Lemma switch_other s chid X :
  0 <= ramin_flip (cfg s) -> ramin_flip (cfg s) mod 4 = 0 -> 0 <= X -> X mod 4 = 0 ->
  (forall o, In o [0; 4; 8; 12; ramfc_sro s] -> X <> geforce_ramfc_address s (live_chid s) o) ->
  geforce_ramin_read32 (geforce_fifo_switch s chid) X = geforce_ramin_read32 s X.
Proof.
  intros Hf Hfm HX HXm Hn.
  rewrite switch_read by (assumption || (intros o E Ho; exfalso; exact (Hn o Ho E))).
  rewrite !(proj2 (Z.eqb_neq _ _)) by (apply Hn; cbn [In]; auto 6). reflexivity.
Qed.

Lemma switch_ramfc_other s chid c o :
  0 <= ramin_flip (cfg s) -> ramin_flip (cfg s) mod 4 = 0 ->
  0 <= c < 32 -> c <> live_chid s -> In o [0; 4; 8; 12; ramfc_sro s] ->
  geforce_ramfc_read32 (geforce_fifo_switch s chid) c o = geforce_ramfc_read32 s c o.
Proof.
  intros Hf Hfm Hc Hne Ho. unfold geforce_ramfc_read32. rewrite ramfc_address_switch.
  destruct (ramfc_address_aligned s c o Hc Ho).
  apply switch_other; try assumption.
  intros o' Ho' E. apply Hne.
  exact (proj1 (ramfc_address_inj s c (live_chid s) o o' Hc (live_chid_range s) Ho Ho' E)).
Qed.

(** A switch saves the five live registers into the outgoing channel's
    record. *)
Lemma switch_saved s chid :
  0 <= ramin_flip (cfg s) -> ramin_flip (cfg s) mod 4 = 0 ->
  (forall o, In o [0; 4; 8; 12; ramfc_sro s] ->
     u32 (Z.lxor (geforce_ramfc_address s (live_chid s) o) (ramin_flip (cfg s)) + 3)
       < memsize (cfg s)) ->
  is_u32 (fifo_cache1_dma_put (pull s)) -> is_u32 (fifo_cache1_dma_get (pull s)) ->
  is_u32 (fifo_cache1_ref_cnt (pull s)) -> is_u32 (fifo_cache1_dma_instance (pull s)) ->
  is_u32 (fifo_cache1_semaphore (pull s)) ->
  (geforce_ramfc_read32 (geforce_fifo_switch s chid) (live_chid s) 0,
   geforce_ramfc_read32 (geforce_fifo_switch s chid) (live_chid s) 4,
   geforce_ramfc_read32 (geforce_fifo_switch s chid) (live_chid s) 8,
   geforce_ramfc_read32 (geforce_fifo_switch s chid) (live_chid s) 12,
   geforce_ramfc_read32 (geforce_fifo_switch s chid) (live_chid s) (ramfc_sro s))
  = live_regs s.
Proof.
  intros Hf Hfm Hin Hv0 Hv1 Hv2 Hv3 Hv4.
  assert (Hne : forall o o', In o [0; 4; 8; 12; ramfc_sro s] -> In o' [0; 4; 8; 12; ramfc_sro s] ->
            o <> o' -> (geforce_ramfc_address s (live_chid s) o =?
                        geforce_ramfc_address s (live_chid s) o') = false).
  { intros o o' Ho Ho' Hoo. apply Z.eqb_neq. intros E.
    exact (Hoo (proj2 (ramfc_address_inj s _ _ o o' (live_chid_range s) (live_chid_range s) Ho Ho' E))). }
  unfold geforce_ramfc_read32. rewrite !ramfc_address_switch.
  rewrite !switch_read;
    try assumption;
    try (intros o E Ho; rewrite E; split; [exact (Hin o Ho) | tauto]);
    try (apply ramfc_address_aligned; [apply live_chid_range | cbn [In]; auto 6]).
  destruct (ramfc_sro_cases s) as [Es | Es]; rewrite Es in *;
  rewrite ?Z.eqb_refl;
  repeat match goal with
  | |- context [geforce_ramfc_address s (live_chid s) ?o =? geforce_ramfc_address s (live_chid s) ?o'] =>
      rewrite (Hne o o') by (solve [cbn [In]; auto 6 | lia])
  end; reflexivity.
Qed.

(** The registers a switch loads are the words of the incoming record. *)
Lemma switch_loaded s chid :
  live_regs (geforce_fifo_switch s chid) =
    (geforce_ramfc_read32 (geforce_fifo_switch s chid) chid 0x0,
     geforce_ramfc_read32 (geforce_fifo_switch s chid) chid 0x4,
     geforce_ramfc_read32 (geforce_fifo_switch s chid) chid 0x8,
     geforce_ramfc_read32 (geforce_fifo_switch s chid) chid 0xC,
     geforce_ramfc_read32 (geforce_fifo_switch s chid) chid (ramfc_sro s)).
Proof.
  rewrite switch_live_regs. unfold geforce_ramfc_read32. rewrite !ramfc_address_switch. reflexivity.
Qed.
End Switch.

Section LoopFrame.
Context {G : Type}.
Variable class_op : Z -> Z -> Z -> Z -> Z -> @GState G -> G * Mem.
Implicit Types s : @GState G.

Lemma fifo_step_frame fuel s chid s' d c :
  fifo_step class_op fuel s chid = Some (s', d, c) -> frame s s'.
Proof.
  unfold fifo_step, frame. cbv zeta.
  destruct (negb (ds_mcnt (dma_state (channels s chid)) =? 0)).
  - match goal with |- context [geforce_execute_command ?a ?b ?c ?d ?e ?f ?g] =>
      destruct (geforce_execute_command a b c d e f g) as [[s2 ok]|] eqn:Ex end;
      [|discriminate].
    destruct (execute_command_keeps _ _ _ _ _ _ _ _ _ Ex) as [-> (Hc & Hr & _ & _ & _ & Hp & _)].
    cbn [negb]. intros E. destruct (triple_some_inj _ _ _ _ _ _ E) as [<- _].
    cbn [set_channel with_channels cfg fifo_ramfc pull]. rewrite Hc, Hr, Hp.
    split; [reflexivity|]. split; reflexivity.
  - repeat match goal with |- context [if ?b then _ else _] => destruct b end;
      intros E; destruct (triple_some_inj _ _ _ _ _ _ E) as [<- _];
      (split; [reflexivity|]); split; reflexivity.
Qed.

Lemma fifo_loop_frame n fuel s chid s' tr :
  fifo_loop class_op n fuel s chid = Some (s', tr) -> frame s s'.
Proof.
  revert s tr. induction n as [|n IH]; intros s tr; cbn [fifo_loop]; [discriminate|].
  destruct (fifo_cache1_dma_get (pull s) =? fifo_cache1_dma_put (pull s)).
  - intros E. destruct (pair_some_inj _ _ _ _ E) as [<- _]. unfold frame; auto.
  - destruct (fifo_step class_op fuel s chid) as [[[s1 d] c]|] eqn:Es; [|discriminate].
    destruct (fifo_step_frame _ _ _ _ _ _ Es) as (H1 & H2 & H3).
    destruct c.
    + destruct (fifo_loop class_op n fuel s1 chid) as [[s2 tr2]|] eqn:El; [|discriminate].
      intros E. destruct (pair_some_inj _ _ _ _ E) as [<- _].
      destruct (IH _ _ El) as (H4 & H5 & H6). unfold frame. rewrite H4, H5, H6. auto.
    + intros E. destruct (pair_some_inj _ _ _ _ E) as [<- _]. unfold frame; auto.
Qed.

Lemma fifo_process_switch n s chid :
  live_chid s <> chid ->
  geforce_ramfc_read32 s chid 0 <> geforce_ramfc_read32 s chid 4 ->
  geforce_fifo_process class_op n s chid = fifo_loop class_op n n (geforce_fifo_switch s chid) chid.
Proof.
  intros Hl Hne. unfold geforce_fifo_process. cbv zeta.
  rewrite (proj2 (Z.eqb_neq _ _) Hl), (proj2 (Z.eqb_neq _ _) Hne). reflexivity.
Qed.
End LoopFrame.

Lemma process_some {G : Type} (r : option (@GState G * list Dispatch)) s :
  match r with Some _ => true | None => false end = true ->
  r = Some (after_process r s, snd (match r with Some p => p | None => (s, []) end)).
Proof. destruct r as [[]|]; [reflexivity | discriminate]. Qed.

(** Closed comparisons of integers, decided by evaluation. *)
Ltac closed_arith :=
  solve [vm_compute; repeat (intro || split); discriminate].

(** C5 (corrected): a round trip A -> B -> A restores A's five live
    registers when the run of B leaves A's saved record as the switch to
    B wrote it. The switch to B saves A's put, get, reference count,
    descriptor instance and semaphore at A's record; the switch back
    saves B's registers into B's own record and loads A's five words from
    A's record, at the same per-generation offsets. The saved words are
    read back exactly when A's record lies in VRAM and the registers are
    32-bit values. The spec's unconditional claim fails because B's
    commands write RAMIN, A's record included (see the counterexample).
    When A had work pending, the next [geforce_fifo_process] for A runs
    its loop on the restored registers. *)
Theorem context_switch_round_trip {G : Type} (class_op : Z -> Z -> Z -> Z -> Z -> @GState G -> G * Mem)
  (fuel : nat) (s0 s2 : @GState G) (A B : Z) (tr : list Dispatch) :
  live_chid s0 = A -> 0 <= B < 32 -> A <> B ->
  0 <= ramin_flip (cfg s0) -> ramin_flip (cfg s0) mod 4 = 0 ->
  (forall o, In o [0; 4; 8; 12; ramfc_sro s0] ->
     u32 (Z.lxor (geforce_ramfc_address s0 A o) (ramin_flip (cfg s0)) + 3) < memsize (cfg s0)) ->
  is_u32 (fifo_cache1_dma_put (pull s0)) -> is_u32 (fifo_cache1_dma_get (pull s0)) ->
  is_u32 (fifo_cache1_ref_cnt (pull s0)) -> is_u32 (fifo_cache1_dma_instance (pull s0)) ->
  is_u32 (fifo_cache1_semaphore (pull s0)) ->
  geforce_ramfc_read32 s0 B 0 <> geforce_ramfc_read32 s0 B 4 ->
  geforce_fifo_process class_op fuel s0 B = Some (s2, tr) ->
  (forall o, In o [0; 4; 8; 12; ramfc_sro s0] ->
     geforce_ramfc_read32 s2 A o = geforce_ramfc_read32 (geforce_fifo_switch s0 B) A o) ->
  live_chid s2 = B /\
  live_regs (geforce_fifo_switch s2 A) = live_regs s0 /\
  (fifo_cache1_dma_put (pull s0) <> fifo_cache1_dma_get (pull s0) ->
   forall fuel', geforce_fifo_process class_op fuel' s2 A =
                 fifo_loop class_op fuel' fuel' (geforce_fifo_switch s2 A) A).
Proof.
  intros HA HB HAB Hf Hfm Hin Hv0 Hv1 Hv2 Hv3 Hv4 HBne Hp Hfr.
  rewrite (fifo_process_switch class_op fuel s0 B) in Hp by (congruence || assumption).
  destruct (fifo_loop_frame class_op _ _ _ _ _ _ Hp) as (Hc & Hr & Hpush).
  destruct (switch_frame s0 B) as (Hc1 & Hr1 & Hpush1).
  assert (Hl2 : live_chid s2 = B).
  { unfold live_chid. rewrite Hpush, Hpush1. apply live_chid_switch. exact HB. }
  assert (Hc2 : cfg s2 = cfg s0) by congruence.
  assert (Hsro : ramfc_sro s2 = ramfc_sro s0) by (apply ramfc_sro_congr; exact Hc2).
  assert (Hsaved := switch_saved s0 B Hf Hfm ltac:(rewrite HA; exact Hin) Hv0 Hv1 Hv2 Hv3 Hv4).
  rewrite HA in Hsaved.
  assert (Hread : forall o, In o [0; 4; 8; 12; ramfc_sro s0] ->
            geforce_ramfc_read32 (geforce_fifo_switch s2 A) A o =
            geforce_ramfc_read32 (geforce_fifo_switch s0 B) A o).
  { intros o Ho. rewrite switch_ramfc_other.
    - apply Hfr. exact Ho.
    - rewrite Hc2. exact Hf.
    - rewrite Hc2. exact Hfm.
    - rewrite <- HA. apply live_chid_range.
    - rewrite Hl2. exact HAB.
    - rewrite Hsro. exact Ho. }
  split; [exact Hl2|]. split.
  - rewrite switch_loaded, Hsro, !Hread by (cbn [In]; auto 6). exact Hsaved.
  - intros Hpg fuel'. apply fifo_process_switch; [rewrite Hl2; congruence|].
    rewrite !Hfr by (cbn [In]; auto 6).
    unfold live_regs in Hsaved. cbv zeta in Hsaved.
    destruct (pair_some_inj _ _ _ _ (f_equal Some Hsaved)) as [H1 _].
    destruct (pair_some_inj _ _ _ _ (f_equal Some H1)) as [H2 _].
    destruct (pair_some_inj _ _ _ _ (f_equal Some H2)) as [H3 _].
    destruct (pair_some_inj _ _ _ _ (f_equal Some H3)) as [H4 H5].
    rewrite H4, H5. exact Hpg.
Qed.

(** Channel 0 live with work pending, channel 1 run with nothing bound:
    the switch back restores channel 0. *)
Lemma context_switch_round_trip_witness :
  live_chid two_channel_quiet_after = 1 /\
  live_regs (geforce_fifo_switch two_channel_quiet_after 0) = live_regs two_channel_quiet_state /\
  (fifo_cache1_dma_put (pull two_channel_quiet_state) <> fifo_cache1_dma_get (pull two_channel_quiet_state) ->
   forall fuel', geforce_fifo_process no_class_op fuel' two_channel_quiet_after 0 =
                 fifo_loop no_class_op fuel' fuel' (geforce_fifo_switch two_channel_quiet_after 0) 0).
Proof.
  apply (context_switch_round_trip no_class_op 600 two_channel_quiet_state two_channel_quiet_after 0 1
           (snd (match geforce_fifo_process no_class_op 600 two_channel_quiet_state 1 with
                 | Some r => r | None => (two_channel_quiet_state, []) end)));
    [closed_arith | lia | discriminate | closed_arith | closed_arith
    | intros o Ho; vm_compute in Ho; destruct Ho as [<-|[<-|[<-|[<-|[<-|[]]]]]]; closed_arith
    | closed_arith | closed_arith | closed_arith | closed_arith | closed_arith | closed_arith
    | apply process_some; vm_compute; reflexivity
    | intros o Ho; vm_compute in Ho; destruct Ho as [<-|[<-|[<-|[<-|[<-|[]]]]]]; closed_arith].
Defined.

(** Channel 1's bind patches RAMIN word 0x1000 (the object bound on its
    subchannel 0 is at 0xFFC, word 1 of it), which is channel 0's saved
    put: the switch back to channel 0 loads put 0x100008 instead of 8. *)
Lemma context_switch_round_trip_counterexample :
  live_regs two_channel_state = (8, 0, 0, 0, 0) /\
  option_map (fun r => (live_chid (fst r), geforce_ramfc_read32 (fst r) 0 0,
                        live_regs (geforce_fifo_switch (fst r) 0)))
    (geforce_fifo_process no_class_op 600 two_channel_state 1)
  = Some (1, 0x100008, (0x100008, 0, 0, 0, 0)).
Proof. split; vm_compute; reflexivity. Qed.
